(** * fixer-app: session store, request gateway and notification channel

    A shallow embedding of [frontend/src/api/client.ts] and
    [frontend/src/hooks/useAuth.ts].  The browser (local storage, the
    location bar, toasts, the console, WebSocket objects and timers) is an
    explicit [World]; every operation of the two modules is a computation in
    a state-and-exception monad over that world, and the events of the
    browser (open, message, error and close events of sockets, timers,
    the passing of time) are steps on the same world.

    Conventions of the model:
    - identifiers of users are integers and times are milliseconds;
    - an [async] function runs from its call to its end with no other event
      in between: its two awaited calls are answered by a [Backend];
    - local storage, the console and the toast library do not throw;
    - a WebSocket is CONNECTING from its construction to its open event,
      as the WebSocket interface specifies. *)

From stdpp Require Import base option list gmap strings pretty.
From Stdlib Require Import ZArith NArith Ascii Lia.

Local Open Scope Z_scope.
Local Open Scope string_scope.
Local Open Scope list_scope.

(** ** Data model ([client.ts], lines 5-43) *)

Inductive Role := admin | executor | customer.

Record User := mkUser {
  id : Z;
  email : string;
  full_name : string;
  role : Role;
  is_active : bool;
  created_at : string
}.

Record LoginRequest := mkLoginRequest {
  username : string;
  password : string
}.

Record LoginResponse := mkLoginResponse {
  access_token : string;
  token_type : string
}.

(** What a rejected axios call carries: [error.response?.status] is either a
    status code, or undefined when no response was received. *)
Record AxiosError := mkAxiosError { response_status : option Z }.

(** Exceptions of the embedded code. *)
Inductive JsError :=
  | EAxios (e : AxiosError)
  | ETypeError (msg : string)
  | ESyntaxError (msg : string)
  | EDOMException (msg : string).

Inductive Result (A : Type) :=
  | Ok (a : A)
  | Throw (e : JsError).
Arguments Ok {A} a.
Arguments Throw {A} e.

(** ** The browser *)

Inductive ToastKind := toast_success | toast_error.

Record ToastOptions := mkToastOptions {
  duration : Z;
  position : string
}.

Inductive ConsoleLevel := console_log | console_error.

Inductive ReadyState := CONNECTING | OPEN | CLOSING | CLOSED.

Global Instance ReadyState_eq_dec : EqDecision ReadyState.
Proof. solve_decision. Defined.

(** Everything observable that the code does, in the order it does it. *)
Inductive Effect :=
  | Toast (k : ToastKind) (msg : string) (opts : option ToastOptions)
  | Console (lvl : ConsoleLevel) (msg : string)
  | Navigate (href : string)
  | StorageSet (key value : string)
  | StorageRemove (key : string)
  | StoreSet (u : option (option User)) (auth loading : option bool)
  | CallConnect (uid : Z)      (* entry of [notificationSocket.connect] *)
  | CallDisconnect             (* entry of [notificationSocket.disconnect] *)
  | SocketNew (k : nat) (url : string)
  | SocketClose (k : nat)
  | SocketSend (k : nat) (payload : string)
  | SetTimeout (delay : Z)
  | SetInterval (delay : Z).

(** A WebSocket object of the page.  The four handler slots are the
    properties [onopen], [onmessage], [onclose], [onerror]; the embedded
    class is the only code that assigns them, so a slot records whether it
    holds that class's handler. *)
Record WebSocketObj := mkWebSocket {
  url : string;
  readyState : ReadyState;
  onopen : bool;
  onmessage : bool;
  onclose : bool;
  onerror : bool;
  constructed_at : Z   (* time of [new WebSocket], for the statements on timing *)
}.

Inductive TimerKind :=
  | ReconnectTimer   (* the closure of [attemptReconnect] *)
  | HeartbeatTimer.  (* the closure of [onopen] *)

Record Timer := mkTimer {
  kind : TimerKind;
  due : Z;
  period : option Z   (* [Some p] for setInterval, [None] for setTimeout *)
}.

(** ** State of the two modules *)

(** [class NotificationSocket], its assignable fields. *)
Record NotificationSocket := mkNotificationSocket {
  ws : option nat;
  userId : option Z;
  reconnectAttempts : Z
}.

(** The two fields no method assigns. *)
Definition reconnectInterval : Z := 5000.
Definition maxReconnectAttempts : Z := 10.

(** [interface AuthState], its data part. *)
Record AuthState := mkAuthState {
  user : option User;
  isLoading : bool;
  isAuthenticated : bool
}.

Record World := mkWorld {
  localStorage : gmap string string;
  location_href : string;
  location_protocol : string;
  location_host : string;
  store : AuthState;
  notificationSocket : NotificationSocket;
  heap : list WebSocketObj;
  timers : list Timer;
  now : Z;
  trace : list Effect
}.

Definition with_localStorage (m : gmap string string) (w : World) : World :=
  mkWorld m (location_href w) (location_protocol w) (location_host w)
    (store w) (notificationSocket w) (heap w) (timers w) (now w) (trace w).

Definition with_href (h : string) (w : World) : World :=
  mkWorld (localStorage w) h (location_protocol w) (location_host w)
    (store w) (notificationSocket w) (heap w) (timers w) (now w) (trace w).

Definition with_store (s : AuthState) (w : World) : World :=
  mkWorld (localStorage w) (location_href w) (location_protocol w)
    (location_host w) s (notificationSocket w) (heap w) (timers w) (now w)
    (trace w).

Definition with_socket (s : NotificationSocket) (w : World) : World :=
  mkWorld (localStorage w) (location_href w) (location_protocol w)
    (location_host w) (store w) s (heap w) (timers w) (now w) (trace w).

Definition with_heap (h : list WebSocketObj) (w : World) : World :=
  mkWorld (localStorage w) (location_href w) (location_protocol w)
    (location_host w) (store w) (notificationSocket w) h (timers w) (now w)
    (trace w).

Definition with_timers (t : list Timer) (w : World) : World :=
  mkWorld (localStorage w) (location_href w) (location_protocol w)
    (location_host w) (store w) (notificationSocket w) (heap w) t (now w)
    (trace w).

Definition with_now (t : Z) (w : World) : World :=
  mkWorld (localStorage w) (location_href w) (location_protocol w)
    (location_host w) (store w) (notificationSocket w) (heap w) (timers w) t
    (trace w).

Definition with_trace (t : list Effect) (w : World) : World :=
  mkWorld (localStorage w) (location_href w) (location_protocol w)
    (location_host w) (store w) (notificationSocket w) (heap w) (timers w)
    (now w) t.

Definition emit (e : Effect) (w : World) : World :=
  with_trace (trace w ++ [e]) w.

(** The page as it is right after a load: module initialisers have run. *)
Definition initial_store : AuthState := mkAuthState None true false.
Definition initial_socket : NotificationSocket :=
  mkNotificationSocket None None 0.

Definition fresh_page (storage : gmap string string)
    (protocol host href : string) (t : Z) : World :=
  mkWorld storage href protocol host initial_store initial_socket [] [] t [].

(** ** The monad of the embedded code: state passing with exceptions *)

Definition M (A : Type) : Type := World -> World * Result A.

Definition ret {A} (a : A) : M A := fun w => (w, Ok a).
Definition throw {A} (e : JsError) : M A := fun w => (w, Throw e).
Definition bind {A B} (m : M A) (k : A -> M B) : M B :=
  fun w => match m w with
           | (w', Ok a) => k a w'
           | (w', Throw e) => (w', Throw e)
           end.
Definition try_catch {A} (body : M A) (handler : JsError -> M A) : M A :=
  fun w => match body w with
           | (w', Ok a) => (w', Ok a)
           | (w', Throw e) => handler e w'
           end.
Definition modify (f : World -> World) : M unit := fun w => (f w, Ok tt).
Definition gets {A} (f : World -> A) : M A := fun w => (w, Ok (f w)).

Global Instance M_ret : MRet M := @ret.
Global Instance M_bind : MBind M := fun A B k m => bind m k.

Definition exec {A} (m : M A) (w : World) : World := fst (m w).
Definition outcome {A} (m : M A) (w : World) : Result A := snd (m w).

(** ** Browser primitives used by the code *)

Definition toast (k : ToastKind) (msg : string) (o : option ToastOptions) : M unit :=
  modify (emit (Toast k msg o)).

Definition console (lvl : ConsoleLevel) (msg : string) : M unit :=
  modify (emit (Console lvl msg)).

Definition localStorage_getItem (key : string) : M (option string) :=
  gets (fun w => localStorage w !! key).

Definition localStorage_setItem (key value : string) : M unit :=
  modify (fun w => emit (StorageSet key value)
                     (with_localStorage (<[key := value]> (localStorage w)) w)).

Definition localStorage_removeItem (key : string) : M unit :=
  modify (fun w => emit (StorageRemove key)
                     (with_localStorage (delete key (localStorage w)) w)).

(** [window.location.href = h] *)
Definition set_location_href (h : string) : M unit :=
  modify (fun w => emit (Navigate h) (with_href h w)).

(** JavaScript truthiness of a [string | null]. *)
Definition truthy (s : option string) : bool :=
  match s with
  | Some s => negb (String.eqb s EmptyString)
  | None => false
  end.

(** ** Inbound frames: JSON values and the fragment of JavaScript that
    [handleMessage] runs on them *)

Local Unset Elimination Schemes.
Inductive JSON :=
  | JNull
  | JBool (b : bool)
  | JNumber (repr : string)   (* the number, as [Number.prototype.toString] prints it *)
  | JString (s : string)
  | JArray (items : list JSON)
  | JObject (fields : list (string * JSON)).   (* in source order *)
Local Set Elimination Schemes.

(** A JavaScript value that came out of [JSON.parse], or [undefined]. *)
Definition JsValue := option JSON.
Definition undefined : JsValue := None.

(** Own property of a parsed object: a later duplicate of a key overwrites
    an earlier one. *)
Fixpoint own_property (key : string) (fields : list (string * JSON)) : JsValue :=
  match fields with
  | [] => None
  | (k, v) :: rest =>
      match own_property key rest with
      | Some v' => Some v'
      | None => if String.eqb k key then Some v else None
      end
  end.

(** [v.key] for the property names the handler reads ([type], [action],
    [ticket], [title]): none of them is defined on the prototypes of objects,
    arrays, strings, numbers or booleans, so only an own property of an
    object yields a value; reading a property of [null] or [undefined]
    throws. *)
Definition Get (v : JsValue) (key : string) : Result JsValue :=
  match v with
  | None => Throw (ETypeError ("Cannot read properties of undefined (reading '" +:+ key +:+ "')"))
  | Some JNull => Throw (ETypeError ("Cannot read properties of null (reading '" +:+ key +:+ "')"))
  | Some (JObject fields) => Ok (own_property key fields)
  | Some _ => Ok undefined
  end.

Fixpoint join_results (sep : string) (l : list (Result string)) : Result string :=
  match l with
  | [] => Ok EmptyString
  | r :: rest =>
      match r with
      | Throw e => Throw e
      | Ok s =>
          match rest with
          | [] => Ok s
          | _ => match join_results sep rest with
                 | Ok t => Ok (s +:+ sep +:+ t)
                 | Throw e => Throw e
                 end
          end
      end
  end.

(** [ToString] of a parsed value, as a template literal applies it.  An
    array prints its elements joined by commas, [null] elements as the empty
    string; a plain object prints as [[object Object]], unless it has an own
    [toString] property, which is never callable: then neither [toString]
    nor [valueOf] yields a primitive and the conversion throws. *)
Fixpoint ToString_JSON (j : JSON) : Result string :=
  match j with
  | JNull => Ok "null"
  | JBool true => Ok "true"
  | JBool false => Ok "false"
  | JNumber repr => Ok repr
  | JString s => Ok s
  | JArray items =>
      join_results ","
        (List.map (fun x => match x with
                            | JNull => Ok EmptyString
                            | _ => ToString_JSON x
                            end) items)
  | JObject fields =>
      match own_property "toString" fields with
      | Some _ => Throw (ETypeError "Cannot convert object to primitive value")
      | None => Ok "[object Object]"
      end
  end.

Definition ToString (v : JsValue) : Result string :=
  match v with
  | None => Ok "undefined"
  | Some j => ToString_JSON j
  end.

(** [v === s] for a string literal [s]. *)
Definition strict_eq_string (v : JsValue) (s : string) : bool :=
  match v with
  | Some (JString t) => String.eqb t s
  | _ => false
  end.

Definition lift {A} (r : Result A) : M A := fun w => (w, r).

(** What [event.data] of a message event is: text, or a [Blob] for a binary
    frame ([binaryType] is never changed from its default). *)
Inductive MessageData :=
  | TextData (s : string)
  | BlobData.

(** [JSON.parse] converts its argument to a string first. *)
Definition data_text (d : MessageData) : string :=
  match d with
  | TextData s => s
  | BlobData => "[object Blob]"
  end.

(** ** [class NotificationSocket] ([client.ts], lines 216-322) *)

(** Whether [new WebSocket(url)] returns an object or throws (a URL the
    browser refuses); the page cannot tell beforehand. *)
Inductive CtorOutcome := CtorOk | CtorThrows.

Definition set_ws (v : option nat) (w : World) : World :=
  let s := notificationSocket w in
  with_socket (mkNotificationSocket v (userId s) (reconnectAttempts s)) w.

Definition set_userId (v : option Z) (w : World) : World :=
  let s := notificationSocket w in
  with_socket (mkNotificationSocket (ws s) v (reconnectAttempts s)) w.

Definition set_reconnectAttempts (n : Z) (w : World) : World :=
  let s := notificationSocket w in
  with_socket (mkNotificationSocket (ws s) (userId s) n) w.

(** The object [this.ws] refers to, if any. *)
Definition held (w : World) : option WebSocketObj :=
  match ws (notificationSocket w) with
  | Some k => heap w !! k
  | None => None
  end.

(** [this.ws?.readyState === WebSocket.OPEN] *)
Definition held_is_open (w : World) : bool :=
  match held w with
  | Some s => bool_decide (readyState s = OPEN)
  | None => false
  end.

Definition update_socket (k : nat) (f : WebSocketObj -> WebSocketObj) (w : World) : World :=
  match heap w !! k with
  | Some s => with_heap (<[k := f s]> (heap w)) w
  | None => w
  end.

Definition set_readyState (r : ReadyState) (s : WebSocketObj) : WebSocketObj :=
  mkWebSocket (url s) r (onopen s) (onmessage s) (onclose s) (onerror s)
    (constructed_at s).

Definition set_onopen (s : WebSocketObj) : WebSocketObj :=
  mkWebSocket (url s) (readyState s) true (onmessage s) (onclose s) (onerror s)
    (constructed_at s).
Definition set_onmessage (s : WebSocketObj) : WebSocketObj :=
  mkWebSocket (url s) (readyState s) (onopen s) true (onclose s) (onerror s)
    (constructed_at s).
Definition set_onclose (s : WebSocketObj) : WebSocketObj :=
  mkWebSocket (url s) (readyState s) (onopen s) (onmessage s) true (onerror s)
    (constructed_at s).
Definition set_onerror (s : WebSocketObj) : WebSocketObj :=
  mkWebSocket (url s) (readyState s) (onopen s) (onmessage s) (onclose s) true
    (constructed_at s).

(** [new WebSocket(url)]: a new object in state CONNECTING, or an exception. *)
Definition new_WebSocket (ctor : CtorOutcome) (u : string) : M nat :=
  match ctor with
  | CtorThrows => throw (EDOMException "SyntaxError")
  | CtorOk => fun w =>
      let k := length (heap w) in
      (emit (SocketNew k u)
         (with_heap (heap w ++ [mkWebSocket u CONNECTING false false false false (now w)]) w),
       Ok k)
  end.

(** [socket.close()] without arguments: starts the closing handshake (or
    fails the pending connection); nothing happens on a socket that is
    already closing or closed.  The close event arrives later. *)
Definition begin_close (s : WebSocketObj) : WebSocketObj :=
  match readyState s with
  | CONNECTING | OPEN => set_readyState CLOSING s
  | CLOSING | CLOSED => s
  end.

Definition WebSocket_close (k : nat) : M unit :=
  modify (fun w => emit (SocketClose k) (update_socket k begin_close w)).

Definition WebSocket_send (k : nat) (payload : string) : M unit :=
  modify (emit (SocketSend k payload)).

Definition setTimeout (kd : TimerKind) (delay : Z) : M unit :=
  modify (fun w =>
    emit (SetTimeout delay)
      (with_timers (timers w ++ [mkTimer kd (now w + delay) None]) w)).

Definition setInterval (kd : TimerKind) (delay : Z) : M unit :=
  modify (fun w =>
    emit (SetInterval delay)
      (with_timers (timers w ++ [mkTimer kd (now w + delay) (Some delay)]) w)).

(** The template literal of line 236. *)
Definition wsUrl (w : World) : string :=
  let wsProtocol :=
    if String.eqb (location_protocol w) "https:" then "wss:" else "ws:" in
  wsProtocol +:+ "//" +:+ location_host w +:+ "/api/tickets/ws/" +:+
  match userId (notificationSocket w) with
  | Some n => pretty n
  | None => "null"
  end.

(** Lines 302-314. *)
Definition attemptReconnect : M unit :=
  n ← gets (fun w => reconnectAttempts (notificationSocket w));
  if bool_decide (n >= maxReconnectAttempts) then
    console console_log "Превышено максимальное количество попыток переподключения"
  else
    modify (set_reconnectAttempts (n + 1));;
    console console_log ("Попытка переподключения " +:+ pretty (n + 1) +:+ "/" +:+
                         pretty maxReconnectAttempts);;
    setTimeout ReconnectTimer reconnectInterval.

(** Lines 229-273. *)
Definition createConnection (ctor : CtorOutcome) : M unit :=
  is_open ← gets held_is_open;
  if (is_open : bool) then ret tt
  else
    try_catch
      (u ← gets wsUrl;
       k ← new_WebSocket ctor u;
       modify (set_ws (Some k));;
       modify (update_socket k set_onopen);;
       modify (update_socket k set_onmessage);;
       modify (update_socket k set_onclose);;
       modify (update_socket k set_onerror))
      (fun error =>
         console console_error "❌ Ошибка создания WebSocket соединения:";;
         attemptReconnect).

(** Lines 223-227. *)
Definition connect (uid : Z) (ctor : CtorOutcome) : M unit :=
  modify (emit (CallConnect uid));;
  modify (set_userId (Some uid));;
  modify (set_reconnectAttempts 0);;
  createConnection ctor.

(** Lines 316-321. *)
Definition disconnect : M unit :=
  modify (emit CallDisconnect);;
  held_ref ← gets (fun w => ws (notificationSocket w));
  match held_ref with
  | Some k => WebSocket_close k;; modify (set_ws None)
  | None => ret tt
  end.

(** The switch of lines 281-293. *)
Definition message_prefix (action : JsValue) : string :=
  if strict_eq_string action "created" then "Создана новая заявка: "
  else if strict_eq_string action "assigned" then "Заявка назначена: "
  else if strict_eq_string action "status_changed" then "Изменен статус заявки: "
  else "Обновлена заявка: ".

(** Lines 275-300. *)
Definition handleMessage (data : JSON) : M unit :=
  ty ← lift (Get (Some data) "type");
  if strict_eq_string ty "ticket_updated" then
    action ← lift (Get (Some data) "action");
    ticket ← lift (Get (Some data) "ticket");
    title ← lift (Get ticket "title");
    text ← lift (ToString title);
    toast toast_success (message_prefix action +:+ text)
      (Some (mkToastOptions 5000 "top-right"))
  else ret tt.

Section Handlers.
(** [JSON.parse]: the value a text denotes, or a [SyntaxError]. *)
Variable JSON_parse : string -> Result JSON.

(** The four handlers that [createConnection] installs (lines 240-268). *)
Definition heartbeat : M unit :=
  is_open ← gets held_is_open;
  if (is_open : bool) then
    held_ref ← gets (fun w => ws (notificationSocket w));
    match held_ref with
    | Some k => WebSocket_send k "ping"
    | None => ret tt
    end
  else ret tt.

Definition ws_onopen : M unit :=
  console console_log "🔌 WebSocket соединение установлено";;
  modify (set_reconnectAttempts 0);;
  setInterval HeartbeatTimer 30000.

Definition ws_onmessage (d : MessageData) : M unit :=
  try_catch
    (data ← lift (JSON_parse (data_text d));
     handleMessage data)
    (fun error => console console_error "Ошибка парсинга WebSocket сообщения:").

Definition ws_onclose : M unit :=
  console console_log "🔌 WebSocket соединение закрыто";;
  attemptReconnect.

Definition ws_onerror : M unit :=
  console console_error "❌ Ошибка WebSocket:".

(** *** The browser's side: events on sockets and timers

    An event that the state does not allow (an open event on a socket that
    is not connecting, a timer that is not due) does nothing. *)

Definition deliver_open (k : nat) : M unit :=
  sock ← gets (fun w => heap w !! k);
  match sock with
  | Some s =>
      if bool_decide (readyState s = CONNECTING) then
        modify (update_socket k (set_readyState OPEN));;
        if onopen s then ws_onopen else ret tt
      else ret tt
  | None => ret tt
  end.

Definition deliver_message (k : nat) (d : MessageData) : M unit :=
  sock ← gets (fun w => heap w !! k);
  match sock with
  | Some s =>
      if bool_decide (readyState s = OPEN) && onmessage s
      then ws_onmessage d else ret tt
  | None => ret tt
  end.

Definition deliver_error (k : nat) : M unit :=
  sock ← gets (fun w => heap w !! k);
  match sock with
  | Some s => if onerror s then ws_onerror else ret tt
  | None => ret tt
  end.

(** The close event: the end of a closing handshake, a failed connection
    attempt, a network loss or a server shutdown. *)
Definition deliver_close (k : nat) : M unit :=
  sock ← gets (fun w => heap w !! k);
  match sock with
  | Some s =>
      if bool_decide (readyState s = CLOSED) then ret tt
      else
        modify (update_socket k (set_readyState CLOSED));;
        if onclose s then ws_onclose else ret tt
  | None => ret tt
  end.

Definition reschedule (i : nat) (t : Timer) (w : World) : World :=
  match period t with
  | None => with_timers (delete i (timers w)) w
  | Some p => with_timers (<[i := mkTimer (kind t) (now w + p) (Some p)]> (timers w)) w
  end.

Definition fire_timer (i : nat) (ctor : CtorOutcome) : M unit :=
  tm ← gets (fun w => timers w !! i);
  present ← gets now;
  match tm with
  | Some t =>
      if bool_decide (due t <= present) then
        modify (reschedule i t);;
        match kind t with
        | ReconnectTimer => createConnection ctor
        | HeartbeatTimer => heartbeat
        end
      else ret tt
  | None => ret tt
  end.

Definition elapse (dt : Z) : M unit :=
  modify (fun w => with_now (now w + Z.max 0 dt) w).

(** Calls from the application and events from the browser, interleaved. *)
Inductive Action :=
  | Connect (uid : Z) (ctor : CtorOutcome)
  | Disconnect
  | Opened (k : nat)
  | Message (k : nat) (d : MessageData)
  | Errored (k : nat)
  | Closed (k : nat)
  | TimerFired (i : nat) (ctor : CtorOutcome)
  | Elapsed (dt : Z).

Definition step (a : Action) : M unit :=
  match a with
  | Connect uid ctor => connect uid ctor
  | Disconnect => disconnect
  | Opened k => deliver_open k
  | Message k d => deliver_message k d
  | Errored k => deliver_error k
  | Closed k => deliver_close k
  | TimerFired i ctor => fire_timer i ctor
  | Elapsed dt => elapse dt
  end.

Fixpoint run (l : list Action) : M unit :=
  match l with
  | [] => ret tt
  | a :: rest => step a;; run rest
  end.
End Handlers.

(** Observations on a world. *)
Definition is_open (s : WebSocketObj) : bool := bool_decide (readyState s = OPEN).

Definition open_connections (w : World) : nat :=
  length (List.filter is_open (heap w)).

Definition is_toast (e : Effect) : bool :=
  match e with Toast _ _ _ => true | _ => false end.

Definition toasts (w : World) : list Effect := List.filter is_toast (trace w).

(** ** Request gateway ([client.ts], lines 78-148) *)

Inductive Reply (A : Type) :=
  | Response2xx (data : A)
  | Rejected (error : AxiosError).
Arguments Response2xx {A} data.
Arguments Rejected {A} error.

(** The backing service, seen from the client: what it answers to the two
    calls of the session store, given the [Authorization] header. *)
Record Backend := mkBackend {
  serve_login : option string -> LoginRequest -> Reply LoginResponse;
  serve_me : option string -> Reply User
}.

(** Lines 87-98: the [Authorization] header of an outbound call. *)
Definition bearer (token : option string) : option string :=
  match token with
  | Some t => if truthy token then Some ("Bearer " +:+ t) else None
  | None => None
  end.

Definition request_interceptor : M (option string) :=
  token ← localStorage_getItem "access_token";
  ret (bearer token).

Definition status_is (error : AxiosError) (code : Z) : bool :=
  bool_decide (response_status error = Some code).

(** Lines 105-119: the rejection branch of the response interceptor. *)
Definition response_interceptor_rejected {A} (error : AxiosError) : M A :=
  (if status_is error 401 then
     localStorage_removeItem "access_token";;
     set_location_href "/login";;
     toast toast_error "Сессия истекла. Войдите в систему заново." None
   else if status_is error 403 then
     toast toast_error "У вас нет прав для выполнения этого действия" None
   else
     match response_status error with
     | Some st =>
         if negb (bool_decide (st = 0)) && bool_decide (st >= 500) then
           toast toast_error "Ошибка сервера. Попробуйте позже." None
         else ret tt
     | None =>
         toast toast_error "Ошибка сети. Проверьте подключение к интернету." None
     end);;
  throw (EAxios error).

(** An outbound call through the [api] instance: request interceptor, the
    service's answer, response interceptor. *)
Definition api_call {A} (serve : option string -> Reply A) : M A :=
  authorization ← request_interceptor;
  match serve authorization with
  | Response2xx data => ret data
  | Rejected error => response_interceptor_rejected error
  end.

Definition authAPI_login (b : Backend) (credentials : LoginRequest) : M LoginResponse :=
  api_call (fun authorization => serve_login b authorization credentials).

Definition authAPI_getCurrentUser (b : Backend) : M User :=
  api_call (serve_me b).

Definition authAPI_logout : M unit :=
  localStorage_removeItem "access_token";;
  set_location_href "/login".

(** ** Session store ([useAuth.ts], lines 17-115) *)

(** zustand's [set(partial)]: the fields present in the patch are replaced. *)
Definition set (u : option (option User)) (auth loading : option bool) : M unit :=
  modify (fun w =>
    let s := store w in
    emit (StoreSet u auth loading)
      (with_store (mkAuthState (default (user s) u)
                               (default (isLoading s) loading)
                               (default (isAuthenticated s) auth)) w)).

Definition error_status (error : JsError) : option Z :=
  match error with
  | EAxios e => response_status e
  | _ => None
  end.

(** Lines 22-58. *)
Definition login (b : Backend) (ctor : CtorOutcome) (credentials : LoginRequest) : M unit :=
  try_catch
    (set None None (Some true);;
     loginResponse ← authAPI_login b credentials;
     localStorage_setItem "access_token" (access_token loginResponse);;
     u ← authAPI_getCurrentUser b;
     set (Some (Some u)) (Some true) (Some false);;
     connect (id u) ctor;;
     toast toast_success ("Добро пожаловать, " +:+ full_name u +:+ "!") None)
    (fun error =>
       set None None (Some false);;
       (if bool_decide (error_status error = Some 401) then
          toast toast_error "Неверный email или пароль" None
        else
          toast toast_error "Ошибка входа в систему" None);;
       throw error).

(** Lines 60-75. *)
Definition logout : M unit :=
  localStorage_removeItem "access_token";;
  disconnect;;
  set (Some None) (Some false) (Some false);;
  toast toast_success "Вы успешно вышли из системы" None;;
  set_location_href "/login".

(** Lines 77-107. *)
Definition initializeAuth (b : Backend) (ctor : CtorOutcome) : M unit :=
  try_catch
    (token ← localStorage_getItem "access_token";
     if negb (truthy token) then
       set None (Some false) (Some false)
     else
       u ← authAPI_getCurrentUser b;
       set (Some (Some u)) (Some true) (Some false);;
       connect (id u) ctor)
    (fun error =>
       localStorage_removeItem "access_token";;
       set (Some None) (Some false) (Some false)).

(** Lines 109-114. *)
Definition setUser (u : option User) : M unit :=
  set (Some u) (Some (bool_decide (is_Some u))) None.

(** The page load that follows an assignment to [window.location.href]:
    local storage survives; the module state is initialised anew, and the
    sockets and timers of the old page are gone. *)
Definition page_load (w : World) : World :=
  mkWorld (localStorage w) (location_href w) (location_protocol w)
    (location_host w) initial_store initial_socket [] [] (now w) (trace w).

(** ** A reference [JSON.parse]

    The handlers above are stated over any [JSON.parse]; this one follows the
    JSON grammar of ECMA-404 on UTF-8 text and serves the scenarios on
    concrete frames.  A number keeps its lexeme ([-0] prints as [0]), which
    is how JavaScript prints the integers that occur in envelopes. *)
Module Json.
Local Open Scope N_scope.

Inductive Token :=
  | TLBrace | TRBrace | TLBracket | TRBracket | TColon | TComma
  | TString (s : string)
  | TNumber (lexeme : string)
  | TTrue | TFalse | TNull.

Definition code (c : ascii) : N := N_of_ascii c.

Definition is_ws (c : ascii) : bool :=
  (code c =? 32) || (code c =? 9) || (code c =? 10) || (code c =? 13).

Definition is_digit (c : ascii) : bool := (48 <=? code c) && (code c <=? 57).

Definition is_number_char (c : ascii) : bool :=
  is_digit c || Ascii.eqb c "-" || Ascii.eqb c "+" || Ascii.eqb c "."
  || Ascii.eqb c "e" || Ascii.eqb c "E".

Definition hex_value (c : ascii) : option N :=
  let n := code c in
  if (48 <=? n) && (n <=? 57) then Some (n - 48)
  else if (65 <=? n) && (n <=? 70) then Some (n - 55)
  else if (97 <=? n) && (n <=? 102) then Some (n - 87)
  else None.

(** The number grammar: an optional minus sign; a zero, or a nonzero digit
    and more digits; optionally a dot and one or more digits; optionally
    an exponent mark, a sign and one or more digits. *)
Inductive NumState :=
  | NStart | NMinus | NZero | NInt | NDot | NFrac | NExp | NExpSign | NExpDigits.

Definition num_step (st : NumState) (c : ascii) : option NumState :=
  match st with
  | NStart =>
      if Ascii.eqb c "-" then Some NMinus
      else if Ascii.eqb c "0" then Some NZero
      else if is_digit c then Some NInt else None
  | NMinus =>
      if Ascii.eqb c "0" then Some NZero
      else if is_digit c then Some NInt else None
  | NZero =>
      if Ascii.eqb c "." then Some NDot
      else if Ascii.eqb c "e" || Ascii.eqb c "E" then Some NExp else None
  | NInt =>
      if is_digit c then Some NInt
      else if Ascii.eqb c "." then Some NDot
      else if Ascii.eqb c "e" || Ascii.eqb c "E" then Some NExp else None
  | NDot => if is_digit c then Some NFrac else None
  | NFrac =>
      if is_digit c then Some NFrac
      else if Ascii.eqb c "e" || Ascii.eqb c "E" then Some NExp else None
  | NExp =>
      if Ascii.eqb c "+" || Ascii.eqb c "-" then Some NExpSign
      else if is_digit c then Some NExpDigits else None
  | NExpSign => if is_digit c then Some NExpDigits else None
  | NExpDigits => if is_digit c then Some NExpDigits else None
  end.

Fixpoint num_run (st : NumState) (cs : list ascii) : bool :=
  match cs with
  | [] => match st with
          | NZero | NInt | NFrac | NExpDigits => true
          | _ => false
          end
  | c :: rest => match num_step st c with
                 | Some st' => num_run st' rest
                 | None => false
                 end
  end.

Definition valid_number (cs : list ascii) : bool := num_run NStart cs.

Definition number_repr (cs : list ascii) : string :=
  let s := String.string_of_list_ascii cs in
  if String.eqb s "-0" then "0" else s.

(** UTF-8 bytes of a code point, last byte first. *)
Definition utf8_rev (n : N) : list ascii :=
  let cont (m : N) := ascii_of_N (128 + m mod 64) in
  if n <? 128 then [ascii_of_N n]
  else if n <? 2048 then [cont n; ascii_of_N (192 + n / 64)]
  else if n <? 65536 then [cont n; cont (n / 64); ascii_of_N (224 + n / 4096)]
  else [cont n; cont (n / 64); cont (n / 4096); ascii_of_N (240 + n / 262144)].

Definition is_high_surrogate (u : N) : bool := (55296 <=? u) && (u <=? 56319).
Definition is_low_surrogate (u : N) : bool := (56320 <=? u) && (u <=? 57343).

(** A pending high surrogate that no low surrogate followed stays in the
    string as it is. *)
Definition flush (high : option N) (rev_bytes : list ascii) : list ascii :=
  match high with
  | Some h => utf8_rev h ++ rev_bytes
  | None => rev_bytes
  end.

Inductive LexState :=
  | LIdle
  | LLiteral (expect : list ascii) (t : Token)
  | LNumber (rev_lexeme : list ascii)
  | LString (rev_bytes : list ascii) (high : option N)
  | LEscape (rev_bytes : list ascii) (high : option N)
  | LUnicode (rev_bytes : list ascii) (high : option N) (digits : list N).

Definition lex_idle (c : ascii) : option (LexState * list Token) :=
  if is_ws c then Some (LIdle, [])
  else if Ascii.eqb c "{" then Some (LIdle, [TLBrace])
  else if Ascii.eqb c "}" then Some (LIdle, [TRBrace])
  else if Ascii.eqb c "[" then Some (LIdle, [TLBracket])
  else if Ascii.eqb c "]" then Some (LIdle, [TRBracket])
  else if Ascii.eqb c ":" then Some (LIdle, [TColon])
  else if Ascii.eqb c "," then Some (LIdle, [TComma])
  else if code c =? 34 then Some (LString [] None, [])
  else if Ascii.eqb c "-" || is_digit c then Some (LNumber [c], [])
  else if Ascii.eqb c "t" then Some (LLiteral (String.list_ascii_of_string "rue") TTrue, [])
  else if Ascii.eqb c "f" then Some (LLiteral (String.list_ascii_of_string "alse") TFalse, [])
  else if Ascii.eqb c "n" then Some (LLiteral (String.list_ascii_of_string "ull") TNull, [])
  else None.

Definition code_unit (digits : list N) : N :=
  fold_left (fun acc d => acc * 16 + d) digits 0.

Definition lex_code_unit (rev_bytes : list ascii) (high : option N) (u : N) : LexState :=
  match high with
  | Some h =>
      if is_low_surrogate u then
        LString (utf8_rev (65536 + (h - 55296) * 1024 + (u - 56320)) ++ rev_bytes) None
      else if is_high_surrogate u then LString (utf8_rev h ++ rev_bytes) (Some u)
      else LString (utf8_rev u ++ utf8_rev h ++ rev_bytes) None
  | None =>
      if is_high_surrogate u then LString rev_bytes (Some u)
      else LString (utf8_rev u ++ rev_bytes) None
  end.

Definition lex_step (st : LexState) (c : ascii) : option (LexState * list Token) :=
  match st with
  | LIdle => lex_idle c
  | LLiteral [] _ => None
  | LLiteral (e :: es) t =>
      if Ascii.eqb c e then
        match es with
        | [] => Some (LIdle, [t])
        | _ => Some (LLiteral es t, [])
        end
      else None
  | LNumber rev_lexeme =>
      if is_number_char c then Some (LNumber (c :: rev_lexeme), [])
      else if valid_number (rev rev_lexeme) then
        match lex_idle c with
        | Some (st', toks) => Some (st', TNumber (number_repr (rev rev_lexeme)) :: toks)
        | None => None
        end
      else None
  | LString rev_bytes high =>
      if code c =? 34 then
        Some (LIdle, [TString (String.string_of_list_ascii (rev (flush high rev_bytes)))])
      else if code c =? 92 then Some (LEscape rev_bytes high, [])
      else if code c <? 32 then None
      else Some (LString (c :: flush high rev_bytes) None, [])
  | LEscape rev_bytes high =>
      let plain (b : N) := Some (LString (ascii_of_N b :: flush high rev_bytes) None, []) in
      if Ascii.eqb c "u" then Some (LUnicode rev_bytes high [], [])
      else if code c =? 34 then plain 34
      else if code c =? 92 then plain 92
      else if Ascii.eqb c "/" then plain 47
      else if Ascii.eqb c "b" then plain 8
      else if Ascii.eqb c "f" then plain 12
      else if Ascii.eqb c "n" then plain 10
      else if Ascii.eqb c "r" then plain 13
      else if Ascii.eqb c "t" then plain 9
      else None
  | LUnicode rev_bytes high digits =>
      match hex_value c with
      | Some d =>
          if (length digits =? 3)%nat
          then Some (lex_code_unit rev_bytes high (code_unit (digits ++ [d])), [])
          else Some (LUnicode rev_bytes high (digits ++ [d]), [])
      | None => None
      end
  end.

Fixpoint lex (st : LexState) (cs : list ascii) (rev_toks : list Token) : option (list Token) :=
  match cs with
  | [] =>
      match st with
      | LIdle => Some (rev rev_toks)
      | LNumber rev_lexeme =>
          if valid_number (rev rev_lexeme)
          then Some (rev (TNumber (number_repr (rev rev_lexeme)) :: rev_toks))
          else None
      | _ => None
      end
  | c :: rest =>
      match lex_step st c with
      | Some (st', toks) => lex st' rest (rev toks ++ rev_toks)
      | None => None
      end
  end.

(** The parser proper: a stack of the arrays and objects under
    construction, and what may come next. *)
Inductive Frame :=
  | FArray (rev_items : list JSON)
  | FObject (rev_fields : list (string * JSON)) (key : string).

Inductive Expect :=
  | XValue          (* a value *)
  | XValueOrEnd     (* after [[]: a value or []] *)
  | XKeyOrEnd (rev_fields : list (string * JSON))   (* after [{]: a key or [}] *)
  | XKey (rev_fields : list (string * JSON))        (* after a comma in an object *)
  | XColon (rev_fields : list (string * JSON)) (key : string)
  | XCommaOrEnd     (* after a value inside an array or an object *)
  | XDone (v : JSON).

(** A finished value goes into the innermost open container. *)
Definition place (v : JSON) (stack : list Frame) : list Frame * Expect :=
  match stack with
  | [] => ([], XDone v)
  | FArray rev_items :: below => (FArray (v :: rev_items) :: below, XCommaOrEnd)
  | FObject rev_fields key :: below =>
      (FObject ((key, v) :: rev_fields) key :: below, XCommaOrEnd)
  end.

Definition scalar (t : Token) : option JSON :=
  match t with
  | TString s => Some (JString s)
  | TNumber l => Some (JNumber l)
  | TTrue => Some (JBool true)
  | TFalse => Some (JBool false)
  | TNull => Some JNull
  | _ => None
  end.

Definition begin_value (t : Token) (stack : list Frame) : option (list Frame * Expect) :=
  match t with
  | TLBracket => Some (FArray [] :: stack, XValueOrEnd)
  | TLBrace => Some (stack, XKeyOrEnd [])
  | _ => match scalar t with
         | Some v => Some (place v stack)
         | None => None
         end
  end.

Definition parse_step (stack : list Frame) (x : Expect) (t : Token)
    : option (list Frame * Expect) :=
  match x with
  | XValue => begin_value t stack
  | XValueOrEnd =>
      match t, stack with
      | TRBracket, FArray rev_items :: below => Some (place (JArray (rev rev_items)) below)
      | TRBracket, _ => None
      | _, _ => begin_value t stack
      end
  | XKeyOrEnd rev_fields =>
      match t with
      | TRBrace => Some (place (JObject (rev rev_fields)) stack)
      | TString k => Some (stack, XColon rev_fields k)
      | _ => None
      end
  | XKey rev_fields =>
      match t with
      | TString k => Some (stack, XColon rev_fields k)
      | _ => None
      end
  | XColon rev_fields k =>
      match t with
      | TColon => Some (FObject rev_fields k :: stack, XValue)
      | _ => None
      end
  | XCommaOrEnd =>
      match t, stack with
      | TComma, FArray _ :: _ => Some (stack, XValue)
      | TComma, FObject rev_fields _ :: below => Some (below, XKey rev_fields)
      | TRBracket, FArray rev_items :: below => Some (place (JArray (rev rev_items)) below)
      | TRBrace, FObject rev_fields _ :: below => Some (place (JObject (rev rev_fields)) below)
      | _, _ => None
      end
  | XDone _ => None
  end.

Fixpoint parse_tokens (stack : list Frame) (x : Expect) (ts : list Token) : option JSON :=
  match ts with
  | [] => match x with XDone v => Some v | _ => None end
  | t :: rest =>
      match parse_step stack x t with
      | Some (stack', x') => parse_tokens stack' x' rest
      | None => None
      end
  end.

Definition parse (text : string) : Result JSON :=
  match lex LIdle (String.list_ascii_of_string text) [] with
  | Some ts =>
      match parse_tokens [] XValue ts with
      | Some v => Ok v
      | None => Throw (ESyntaxError "Unexpected token in JSON")
      end
  | None => Throw (ESyntaxError "Unexpected token in JSON")
  end.
End Json.

(** ** Vocabulary of the statements *)

(** *** The alerts *)

Definition session_expired_alert : Effect :=
  Toast toast_error "Сессия истекла. Войдите в систему заново." None.
Definition permission_alert : Effect :=
  Toast toast_error "У вас нет прав для выполнения этого действия" None.
Definition server_error_alert : Effect :=
  Toast toast_error "Ошибка сервера. Попробуйте позже." None.
Definition network_error_alert : Effect :=
  Toast toast_error "Ошибка сети. Проверьте подключение к интернету." None.

Definition welcome_alert (u : User) : Effect :=
  Toast toast_success ("Добро пожаловать, " +:+ full_name u +:+ "!") None.

Definition goodbye_alert : Effect :=
  Toast toast_success "Вы успешно вышли из системы" None.

Definition parse_error_log : Effect :=
  Console console_error "Ошибка парсинга WebSocket сообщения:".

(** The alerts of the response interceptor (lines 106-117), by status. *)
Definition gateway_alerts (error : AxiosError) : list Effect :=
  match response_status error with
  | None => [network_error_alert]
  | Some st =>
      if (st =? 401)%Z then [session_expired_alert]
      else if (st =? 403)%Z then [permission_alert]
      else if (500 <=? st)%Z then [server_error_alert]
      else []
  end.

(** *** The channel *)

(** The channel touches neither the session store, nor local storage, nor
    the location, and shows no alert, outside [handleMessage]. *)
Definition page_untouched (w w' : World) : Prop :=
  store w' = store w /\ localStorage w' = localStorage w /\
  location_href w' = location_href w /\ toasts w' = toasts w.

(** The socket that [createConnection] leaves behind: connecting, with the
    four handlers installed. *)
Definition connecting_socket (u : string) (t : Z) : WebSocketObj :=
  mkWebSocket u CONNECTING true true true true t.

(** A run in which every reconnection attempt fails: the pending reconnect
    timer (number [i]) fires when it is due, the socket it creates (number
    [k]) fails after [d] milliseconds, which the browser reports as an error
    event followed by a close event; and so on for the remaining delays. *)
Fixpoint failing_run (i k : nat) (delays : list Z) : list Action :=
  match delays with
  | [] => []
  | d :: rest =>
      [Elapsed reconnectInterval; TimerFired i CtorOk; Elapsed d; Errored k; Closed k]
      ++ failing_run i (S k) rest
  end.

(** When the attempts of such a run are made, if the first close happens at
    time [t]. *)
Fixpoint attempt_times (t : Z) (delays : list Z) : list Z :=
  match delays with
  | [] => []
  | d :: rest => (t + reconnectInterval) :: attempt_times (t + reconnectInterval + d) rest
  end.

(** The sockets created since the heap had [n] objects, by construction time. *)
Definition attempts_since (n : nat) (w : World) : list Z :=
  constructed_at <$> drop n (heap w).

(** Times are in milliseconds. *)
Definition seconds (n : Z) : Z := 1000 * n.

(** *** Pages and services of the scenarios *)

Definition alice : User :=
  mkUser 7 "alice@example.com" "Alice" customer true "2024-01-01T00:00:00".

Definition alice_credentials : LoginRequest :=
  mkLoginRequest "alice@example.com" "secret".

(** A service that accepts the login and answers the identity fetch with
    [me]. *)
Definition service (me : Reply User) : Backend :=
  mkBackend (fun _ _ => Response2xx (mkLoginResponse "token-1" "bearer"))
            (fun _ => me).

Definition rejection (status : option Z) : Reply User :=
  Rejected (mkAxiosError status).

Definition login_page : World :=
  fresh_page ∅ "http:" "localhost:3000" "/login" 0.

(** A page whose local storage holds a credential from an earlier visit. *)
Definition returning_page : World :=
  fresh_page {[ "access_token" := "stale-token" ]} "http:" "localhost:3000" "/" 0.

(** Alice logged in on [login_page]; her socket (number 0) has opened. *)
Definition alice_session (JSON_parse : string -> Result JSON) : World :=
  exec (run JSON_parse [Opened 0%nat])
    (exec (login (service (Response2xx alice)) CtorOk alice_credentials) login_page).

(** A JSON text written with apostrophes in place of its double quotes. *)
Definition json_text (s : string) : string :=
  String.string_of_list_ascii
    (List.map (fun c => if Ascii.eqb c "'"%char then Ascii.ascii_of_nat 34 else c)
       (String.list_ascii_of_string s)).

(** *** Proof automation

    The operations below are unfolded by their own equations, not by
    [cbn]. *)
Arguments connect : simpl never.
Arguments disconnect : simpl never.
Arguments createConnection : simpl never.
Arguments attemptReconnect : simpl never.
Arguments handleMessage : simpl never.
Arguments api_call : simpl never.
Arguments response_interceptor_rejected : simpl never.
Arguments Get : simpl never.
Arguments ToString : simpl never.
Arguments strict_eq_string : simpl never.

(** Run the monad on a symbolic world. *)
Ltac munfold :=
  unfold exec, outcome, mbind, M_bind, bind, try_catch, modify, gets, ret, throw, lift.

Ltac mrun := repeat (munfold; cbn).

(** Alerts of a trace that ends in known effects. *)
Ltac toasts_simpl :=
  unfold toasts; cbn; rewrite ?List.filter_app; cbn; rewrite ?app_nil_r.

(** The branches of the response interceptor. *)
Ltac interceptor_cases error :=
  unfold response_interceptor_rejected, status_is, localStorage_removeItem,
    set_location_href, toast; mrun;
  destruct (response_status error) as [?st|];
  repeat case_bool_decide; simplify_eq; cbn.

(** ** Vocabulary of the further properties *)

(** The reconnect counter is within its bounds. *)
Definition counter_in_range (w : World) : Prop :=
  0 <= reconnectAttempts (notificationSocket w) <= maxReconnectAttempts.

Ltac split_matches :=
  repeat (match goal with
          | |- context [match ?x with _ => _ end] => destruct x eqn:?
          end; cbn).


(** The heartbeat timers that are set: the intervals of [onopen]. *)
Definition is_heartbeat (t : Timer) : bool :=
  match kind t with
  | HeartbeatTimer => true
  | ReconnectTimer => false
  end.

Definition heartbeat_timers (w : World) : nat :=
  length (List.filter is_heartbeat (timers w)).

(** Heartbeat timers come from [setInterval]: they repeat. *)
Definition intervals_repeat (w : World) : Prop :=
  Forall (fun t => kind t = HeartbeatTimer -> is_Some (period t)) (timers w).

(** The address of the channel of user [uid], for a page loaded over
    [protocol] from [host]. *)
Definition socket_url (protocol host : string) (uid : Z) : string :=
  (if String.eqb protocol "https:" then "wss:" else "ws:") +:+
  "//" +:+ host +:+ "/api/tickets/ws/" +:+ pretty uid.

Definition is_send (e : Effect) : bool :=
  match e with SocketSend _ _ => true | _ => false end.

(** [w'] continues the trace of [w] without sending anything. *)
Definition adds_no_send (w w' : World) : Prop :=
  exists l, trace w' = trace w ++ l /\ Forall (fun e => is_send e = false) l.

(** Every socket of the page was created for some user, and nothing of the
    channel exists before the first [connect]. *)
Definition sockets_name_a_user (w : World) : Prop :=
  (userId (notificationSocket w) = None -> heap w = [] /\ timers w = []) /\
  Forall (fun s => exists uid, url s = socket_url (location_protocol w) (location_host w) uid)
    (heap w).

(** ** The rest of [useAuth.ts]: the derived views (lines 118-155) *)

Global Instance Role_eq_dec : EqDecision Role.
Proof. solve_decision. Defined.

(** The roles are the texts ['admin'], ['executor'] and ['customer']. *)
Definition role_name (r : Role) : string :=
  match r with
  | admin => "admin"
  | executor => "executor"
  | customer => "customer"
  end.

(** [user?.role === name] *)
Definition has_role (name : string) (s : AuthState) : bool :=
  match user s with
  | Some u => String.eqb (role_name (role u)) name
  | None => false
  end.

Definition useCurrentUser (s : AuthState) : option User := user s.
Definition useIsAdmin (s : AuthState) : bool := has_role "admin" s.
Definition useIsExecutor (s : AuthState) : bool := has_role "executor" s.
Definition useIsCustomer (s : AuthState) : bool := has_role "customer" s.
Definition useCanCreateTickets (s : AuthState) : bool :=
  has_role "customer" s || has_role "admin" s.
Definition useCanManageUsers (s : AuthState) : bool := has_role "admin" s.
Definition useCanGenerateReports (s : AuthState) : bool :=
  has_role "admin" s || has_role "executor" s.

(** ** [ProtectedRoute.tsx] *)

(** The property [requiredRole]: absent, one role, or a list of roles. *)
Inductive RequiredRole :=
  | NoRole
  | OneRole (r : string)
  | Roles (l : list string).

Inductive Rendered :=
  | Spinner
  | NavigateTo (to : string)
  | AccessDenied
  | Children.

(** [if (requiredRole)]: the empty text counts as absent, an array never. *)
Definition requiredRole_given (rr : RequiredRole) : bool :=
  match rr with
  | NoRole => false
  | OneRole r => negb (String.eqb r EmptyString)
  | Roles _ => true
  end.

(** [Array.isArray(requiredRole) ? requiredRole : [requiredRole]] *)
Definition allowedRoles (rr : RequiredRole) : list string :=
  match rr with
  | NoRole => []
  | OneRole r => [r]
  | Roles l => l
  end.

Definition includes (l : list string) (x : string) : bool :=
  existsb (String.eqb x) l.

(** Lines 10-49. *)
Definition ProtectedRoute (requiredRole : RequiredRole) (s : AuthState) : Rendered :=
  if isLoading s then Spinner
  else
    match user s with
    | None => NavigateTo "/login"
    | Some u =>
        if negb (isAuthenticated s) then NavigateTo "/login"
        else if requiredRole_given requiredRole
                && negb (includes (allowedRoles requiredRole) (role_name (role u)))
        then AccessDenied
        else Children
    end.

(** ** The route table of [App] (in [useAuth.ts], lines 170-281)

    [Route] is the entry of the table that the router has matched. *)
Inductive Route :=
  | RLogin
  | RIndex
  | RDashboard
  | RTicketsIndex
  | RTicketNew
  | RTicketView (ticket : string)
  | RTicketEdit (ticket : string)
  | RUsers
  | RReports
  | RSettings
  | RNotFound.

Inductive Page :=
  | LoginPage
  | DashboardPage
  | TicketFormPage
  | TicketViewPage
  | UsersPage
  | ReportsPage
  | SettingsPage
  | NotFoundPage.

Inductive Screen :=
  | LoadingScreen
  | GoTo (to : string)
  | Denied
  | Display (p : Page).

Definition guarded (requiredRole : RequiredRole) (s : AuthState) (inner : Screen) : Screen :=
  match ProtectedRoute requiredRole s with
  | Spinner => LoadingScreen
  | NavigateTo to => GoTo to
  | AccessDenied => Denied
  | Children => inner
  end.

Definition App (s : AuthState) (r : Route) : Screen :=
  if isLoading s then LoadingScreen
  else
    match r with
    | RLogin =>
        match user s with
        | Some _ => GoTo "/dashboard"
        | None => Display LoginPage
        end
    | RNotFound => Display NotFoundPage
    | RIndex | RTicketsIndex => guarded NoRole s (GoTo "/dashboard")
    | RDashboard => guarded NoRole s (Display DashboardPage)
    | RTicketNew | RTicketEdit _ => guarded NoRole s (Display TicketFormPage)
    | RTicketView _ => guarded NoRole s (Display TicketViewPage)
    | RUsers => guarded NoRole s (guarded (OneRole "admin") s (Display UsersPage))
    | RReports =>
        guarded NoRole s (guarded (Roles ["admin"; "executor"]) s (Display ReportsPage))
    | RSettings => guarded NoRole s (Display SettingsPage)
    end.

(** The two targets of the redirects of the table. *)
Definition route_of_target (to : string) : Route :=
  if String.eqb to "/login" then RLogin
  else if String.eqb to "/dashboard" then RDashboard
  else RNotFound.

(** Follow redirects, at most [hops] of them. *)
Fixpoint settle (hops : nat) (s : AuthState) (r : Route) : Screen :=
  match App s r, hops with
  | GoTo to, S n => settle n s (route_of_target to)
  | screen, _ => screen
  end.

(** ** The sidebar of [Layout.tsx] (lines 21-27): names and targets *)
Definition navigation (s : AuthState) : list (string * string) :=
  [("Дашборд", "/dashboard"); ("Создать заявку", "/tickets/new")] ++
  (if useIsAdmin s then [("Пользователи", "/users")] else []) ++
  [("Отчеты", "/reports"); ("Настройки", "/settings")].

(** ** The submit handler of the login page (lines 25-41 of its file) *)
Record LoginPageState := mkLoginPageState {
  isSubmitting : bool;
  root_error : option string;
  navigated : option string
}.

Definition Login_onSubmit (b : Backend) (ctor : CtorOutcome) (form_email form_password : string)
    (st : LoginPageState) (w : World) : World * LoginPageState :=
  match login b ctor (mkLoginRequest form_email form_password) w with
  | (w', Ok _) => (w', mkLoginPageState false (root_error st) (Some "/dashboard"))
  | (w', Throw _) => (w', mkLoginPageState false (Some "Ошибка входа в систему") (navigated st))
  end.

(** ** Runs of the whole client: calls of the session store and of the
    gateway, mixed with calls and events of the channel *)
Inductive ClientCall :=
  | CallLogin (b : Backend) (ctor : CtorOutcome) (credentials : LoginRequest)
  | CallLogout
  | CallInitializeAuth (b : Backend) (ctor : CtorOutcome)
  | CallSetUser (u : option User)
  | CallAuthAPILogout
  | CallApi (serve : option string -> Reply unit)
  | Channel (a : Action).

Definition client_step (JSON_parse : string -> Result JSON) (c : ClientCall) (w : World) : World :=
  match c with
  | CallLogin b ctor credentials => exec (login b ctor credentials) w
  | CallLogout => exec logout w
  | CallInitializeAuth b ctor => exec (initializeAuth b ctor) w
  | CallSetUser u => exec (setUser u) w
  | CallAuthAPILogout => exec authAPI_logout w
  | CallApi serve => exec (api_call serve) w
  | Channel a => exec (step JSON_parse a) w
  end.

Definition client_run (JSON_parse : string -> Result JSON) (l : list ClientCall) (w : World) : World :=
  fold_left (fun w c => client_step JSON_parse c w) l w.

(** The alert of the [catch] block of [login] (lines 50-54). *)
Definition login_failure_alert (error : AxiosError) : Effect :=
  if bool_decide (response_status error = Some 401)
  then Toast toast_error "Неверный email или пароль" None
  else Toast toast_error "Ошибка входа в систему" None.

(** What each operation of the session store does to the store. *)
Inductive store_effect (s : AuthState) : AuthState -> Prop :=
  | effect_loaded :
      store_effect s (mkAuthState (user s) false (isAuthenticated s))
  | effect_signed_in u :
      store_effect s (mkAuthState (Some u) false true)
  | effect_signed_out :
      store_effect s (mkAuthState None false false)
  | effect_unauthenticated :
      store_effect s (mkAuthState (user s) false false).

(** What a step may do to the timers, as far as heartbeats are concerned. *)
Definition keeps_heartbeats (w w' : World) : Prop :=
  intervals_repeat w' /\ (heartbeat_timers w <= heartbeat_timers w')%nat.

(** * Properties *)

(** ** Notification channel: basic facts *)


Lemma page_untouched_refl w : page_untouched w w.
Proof. by repeat split. Qed.

Lemma page_untouched_trans w1 w2 w3 :
  page_untouched w1 w2 -> page_untouched w2 w3 -> page_untouched w1 w3.
Proof. intros (?&?&?&?) (?&?&?&?). repeat split; congruence. Qed.

Lemma attemptReconnect_returns w : (attemptReconnect w).2 = Ok tt.
Proof.
  unfold attemptReconnect, setTimeout, console. mrun. by case_bool_decide.
Qed.

Lemma attemptReconnect_untouched w : page_untouched w (attemptReconnect w).1.
Proof.
  unfold attemptReconnect, setTimeout, console, page_untouched. mrun.
  case_bool_decide; cbn; repeat split; by toasts_simpl.
Qed.


Lemma update_socket_last (f : WebSocketObj -> WebSocketObj) (s : WebSocketObj) (h : list WebSocketObj) (w : World) :
  update_socket (length h) f (with_heap (h ++ [s]) w) = with_heap (h ++ [f s]) w.
Proof.
  unfold update_socket. cbn.
  rewrite list_lookup_middle by done. cbn.
  replace (length h) with (length h + 0)%nat at 1 by lia.
  by rewrite insert_app_r.
Qed.

Lemma createConnection_skip ctor w :
  held_is_open w = true -> createConnection ctor w = (w, Ok tt).
Proof. intros H. unfold createConnection. mrun. by rewrite H. Qed.

Lemma createConnection_new w :
  held_is_open w = false ->
  createConnection CtorOk w =
    (set_ws (Some (length (heap w)))
       (emit (SocketNew (length (heap w)) (wsUrl w))
          (with_heap (heap w ++ [connecting_socket (wsUrl w) (now w)]) w)),
     Ok tt).
Proof.
  intros H. unfold createConnection, new_WebSocket. mrun. rewrite H.
  f_equal.
  change (set_ws ?k (emit ?e (with_heap ?h w))) with (with_heap h (set_ws k (emit e w))).
  by rewrite !update_socket_last.
Qed.

Lemma createConnection_throws w :
  held_is_open w = false ->
  createConnection CtorThrows w =
    attemptReconnect (emit (Console console_error "❌ Ошибка создания WebSocket соединения:") w).
Proof. intros H. unfold createConnection, new_WebSocket, console. mrun. by rewrite H. Qed.

Lemma createConnection_returns ctor w : (createConnection ctor w).2 = Ok tt.
Proof.
  destruct (held_is_open w) eqn:H.
  - by rewrite createConnection_skip.
  - destruct ctor.
    + by rewrite createConnection_new.
    + rewrite createConnection_throws by done. apply attemptReconnect_returns.
Qed.

Lemma createConnection_untouched ctor w : page_untouched w (createConnection ctor w).1.
Proof.
  destruct (held_is_open w) eqn:H.
  - rewrite createConnection_skip by done. apply page_untouched_refl.
  - destruct ctor.
    + rewrite createConnection_new by done. repeat split. by toasts_simpl.
    + rewrite createConnection_throws by done.
      eapply page_untouched_trans; [|apply attemptReconnect_untouched].
      repeat split. by toasts_simpl.
Qed.

Lemma attemptReconnect_userId w :
  userId (notificationSocket (attemptReconnect w).1) = userId (notificationSocket w).
Proof.
  unfold attemptReconnect, setTimeout, console. mrun. by case_bool_decide.
Qed.

Lemma createConnection_userId ctor w :
  userId (notificationSocket (createConnection ctor w).1) = userId (notificationSocket w).
Proof.
  destruct (held_is_open w) eqn:H.
  - by rewrite createConnection_skip.
  - destruct ctor.
    + by rewrite createConnection_new.
    + rewrite createConnection_throws by done. by rewrite attemptReconnect_userId.
Qed.

(** [connect] is [createConnection] after the two assignments. *)
Lemma connect_unfold uid ctor w :
  connect uid ctor w =
    createConnection ctor
      (set_reconnectAttempts 0 (set_userId (Some uid) (emit (CallConnect uid) w))).
Proof. reflexivity. Qed.

Lemma connect_returns uid ctor w : (connect uid ctor w).2 = Ok tt.
Proof. rewrite connect_unfold. apply createConnection_returns. Qed.

Lemma connect_untouched uid ctor w : page_untouched w (connect uid ctor w).1.
Proof.
  rewrite connect_unfold.
  eapply page_untouched_trans; [|apply createConnection_untouched].
  repeat split. by toasts_simpl.
Qed.

Lemma connect_userId uid ctor w :
  userId (notificationSocket (connect uid ctor w).1) = Some uid.
Proof. rewrite connect_unfold. by rewrite createConnection_userId. Qed.

Lemma disconnect_returns w : (disconnect w).2 = Ok tt.
Proof.
  unfold disconnect, WebSocket_close. mrun.
  by destruct (ws (notificationSocket w)).
Qed.

Lemma update_socket_untouched k f w : page_untouched w (update_socket k f w).
Proof. unfold update_socket. destruct (heap w !! k); by repeat split. Qed.

Lemma disconnect_untouched w : page_untouched w (disconnect w).1.
Proof.
  unfold disconnect, WebSocket_close. mrun.
  destruct (ws (notificationSocket w)) as [k|]; cbn.
  - unfold update_socket. cbn. destruct (heap w !! k); repeat split; by toasts_simpl.
  - repeat split; by toasts_simpl.
Qed.

Lemma attemptReconnect_trace w : exists l, trace (attemptReconnect w).1 = trace w ++ l.
Proof.
  unfold attemptReconnect, setTimeout, console. mrun.
  case_bool_decide; cbn; rewrite <- ?app_assoc; eauto.
Qed.

Lemma createConnection_trace ctor w : exists l, trace (createConnection ctor w).1 = trace w ++ l.
Proof.
  destruct (held_is_open w) eqn:H.
  - rewrite createConnection_skip by done. exists []. by rewrite app_nil_r.
  - destruct ctor.
    + rewrite createConnection_new by done. cbn. eauto.
    + rewrite createConnection_throws by done.
      destruct (attemptReconnect_trace
        (emit (Console console_error "❌ Ошибка создания WebSocket соединения:") w)) as [l Hl].
      rewrite Hl. cbn. rewrite <- app_assoc. eauto.
Qed.

Lemma connect_trace uid ctor w :
  exists l, trace (connect uid ctor w).1 = trace w ++ CallConnect uid :: l.
Proof.
  rewrite connect_unfold.
  destruct (createConnection_trace ctor
    (set_reconnectAttempts 0 (set_userId (Some uid) (emit (CallConnect uid) w)))) as [l Hl].
  rewrite Hl. cbn. rewrite <- app_assoc. eauto.
Qed.

(** ** Session store and request gateway *)

Lemma api_call_fulfilled {A} (serve : option string -> Reply A) w data :
  serve (bearer (localStorage w !! "access_token")) = Response2xx data ->
  api_call serve w = (w, Ok data).
Proof. intros H. unfold api_call, request_interceptor, localStorage_getItem. mrun. by rewrite H. Qed.

Lemma api_call_rejected {A} (serve : option string -> Reply A) w error :
  serve (bearer (localStorage w !! "access_token")) = Rejected error ->
  api_call serve w = response_interceptor_rejected error w.
Proof. intros H. unfold api_call, request_interceptor, localStorage_getItem. mrun. by rewrite H. Qed.

Lemma login_success_run b ctor credentials w resp u :
  serve_login b (bearer (localStorage w !! "access_token")) credentials = Response2xx resp ->
  serve_me b (bearer (Some (access_token resp))) = Response2xx u ->
  exists w2,
    store w2 = mkAuthState (Some u) false true /\
    localStorage w2 = <["access_token" := access_token resp]> (localStorage w) /\
    location_href w2 = location_href w /\
    toasts w2 = toasts w /\
    (exists l, trace w2 = trace w ++ l) /\
    login b ctor credentials w =
      (emit (welcome_alert u) (connect (id u) ctor w2).1, Ok tt).
Proof.
  intros Hl Hm.
  unfold login, authAPI_login, authAPI_getCurrentUser, set, localStorage_setItem, toast.
  mrun.
  erewrite api_call_fulfilled by (cbn; exact Hl). mrun.
  erewrite api_call_fulfilled by (cbn; rewrite lookup_insert_eq; exact Hm). mrun.
  match goal with |- context [connect (id u) ctor ?w2] => exists w2 end.
  repeat split.
  - by toasts_simpl.
  - cbn. rewrite <- !app_assoc. eauto.
  - pose proof (connect_returns (id u) ctor) as Hr.
    match goal with |- context [connect (id u) ctor ?w2] =>
      specialize (Hr w2); destruct (connect (id u) ctor w2) as [w3 r] end.
    cbn in Hr. subst r. reflexivity.
Qed.

(** C6. A login whose token exchange and identity fetch both succeed ends
    authenticated, with the returned access token persisted, the
    notification channel asked to connect with the identity's id, and the
    welcome alert shown. *)
Theorem login_success b ctor credentials w resp u :
  serve_login b (bearer (localStorage w !! "access_token")) credentials = Response2xx resp ->
  serve_me b (bearer (Some (access_token resp))) = Response2xx u ->
  let w' := exec (login b ctor credentials) w in
  outcome (login b ctor credentials) w = Ok tt /\
  isAuthenticated (store w') = true /\
  user (store w') = Some u /\
  localStorage w' !! "access_token" = Some (access_token resp) /\
  CallConnect (id u) ∈ trace w' /\
  userId (notificationSocket w') = Some (id u) /\
  toasts w' = toasts w ++ [welcome_alert u].
Proof.
  intros Hl Hm.
  destruct (login_success_run b ctor credentials w resp u Hl Hm)
    as (w2 & Hstore & Hls & _ & Htoasts & _ & Hrun).
  unfold exec, outcome. rewrite Hrun. cbn [fst snd].
  destruct (connect_untouched (id u) ctor w2) as (Hs & Hl' & _ & Ht).
  destruct (connect_trace (id u) ctor w2) as [l Htr].
  repeat split.
  - cbn. by rewrite Hs, Hstore.
  - cbn. by rewrite Hs, Hstore.
  - cbn. by rewrite Hl', Hls, lookup_insert_eq.
  - cbn. rewrite Htr. set_solver.
  - cbn. apply connect_userId.
  - toasts_simpl. fold (toasts (connect (id u) ctor w2).1). by rewrite Ht, Htoasts.
Qed.

Lemma login_success_witness :
  let b := service (Response2xx alice) in
  let w' := exec (login b CtorOk alice_credentials) login_page in
  serve_login b (bearer (localStorage login_page !! "access_token")) alice_credentials
    = Response2xx (mkLoginResponse "token-1" "bearer") /\
  serve_me b (bearer (Some "token-1")) = Response2xx alice /\
  outcome (login b CtorOk alice_credentials) login_page = Ok tt /\
  isAuthenticated (store w') = true /\
  user (store w') = Some alice /\
  localStorage w' !! "access_token" = Some "token-1" /\
  CallConnect 7 ∈ trace w' /\
  userId (notificationSocket w') = Some 7 /\
  toasts w' = toasts login_page ++ [welcome_alert alice].
Proof.
  split; [reflexivity|]. split; [reflexivity|].
  apply (login_success (service (Response2xx alice)) CtorOk alice_credentials
           login_page (mkLoginResponse "token-1" "bearer") alice); reflexivity.
Defined.

(** *** The response interceptor *)

Lemma interceptor_401 {A} error w :
  response_status error = Some 401 ->
  @response_interceptor_rejected A error w =
    (emit session_expired_alert
       (emit (Navigate "/login")
          (with_href "/login"
             (emit (StorageRemove "access_token")
                (with_localStorage (delete "access_token" (localStorage w)) w)))),
     Throw (EAxios error)).
Proof.
  intros H. unfold response_interceptor_rejected, status_is.
  rewrite H. unfold localStorage_removeItem, set_location_href, toast. by mrun.
Qed.

Lemma interceptor_throws {A} error w :
  (@response_interceptor_rejected A error w).2 = Throw (EAxios error).
Proof. interceptor_cases error; done. Qed.

(** The interceptor has no access to the session store or to the channel. *)
Lemma interceptor_leaves_session {A} error w :
  let w' := (@response_interceptor_rejected A error w).1 in
  store w' = store w /\ notificationSocket w' = notificationSocket w /\
  heap w' = heap w /\ timers w' = timers w.
Proof. interceptor_cases error; done. Qed.

Lemma interceptor_alerts {A} error w :
  toasts (@response_interceptor_rejected A error w).1 = toasts w ++ gateway_alerts error.
Proof.
  unfold gateway_alerts. interceptor_cases error; try by toasts_simpl.
  all: destruct (Z.eqb_spec st 401); try lia; try congruence.
  all: destruct (Z.eqb_spec st 403); try lia; try congruence.
  all: destruct (Z.leb_spec 500 st); try lia.
  all: by toasts_simpl.
Qed.

Lemma interceptor_keeps_credential {A} error w :
  response_status error <> Some 401 ->
  let w' := (@response_interceptor_rejected A error w).1 in
  localStorage w' = localStorage w /\ location_href w' = location_href w.
Proof. intros H. interceptor_cases error; done. Qed.

(** *** C10: login when the identity fetch fails *)

Lemma login_fetch_fails_run b ctor credentials w resp error :
  serve_login b (bearer (localStorage w !! "access_token")) credentials = Response2xx resp ->
  serve_me b (bearer (Some (access_token resp))) = Rejected error ->
  exists w1 w2,
    localStorage w1 = <["access_token" := access_token resp]> (localStorage w) /\
    user (store w1) = user (store w) /\
    isAuthenticated (store w1) = isAuthenticated (store w) /\
    w2 = (@response_interceptor_rejected User error w1).1 /\
    localStorage (login b ctor credentials w).1 = localStorage w2 /\
    user (store (login b ctor credentials w).1) = user (store w2) /\
    isAuthenticated (store (login b ctor credentials w).1) = isAuthenticated (store w2) /\
    isLoading (store (login b ctor credentials w).1) = false /\
    (login b ctor credentials w).2 = Throw (EAxios error).
Proof.
  intros Hl Hm.
  unfold login, authAPI_login, authAPI_getCurrentUser, set, localStorage_setItem, toast.
  mrun.
  erewrite api_call_fulfilled by (cbn; exact Hl). mrun.
  erewrite api_call_rejected by (cbn; rewrite lookup_insert_eq; exact Hm).
  match goal with |- context [response_interceptor_rejected error ?w1] =>
    exists w1, (@response_interceptor_rejected User error w1).1;
    pose proof (@interceptor_throws User error w1) as Hthrow;
    destruct (@response_interceptor_rejected User error w1) as [w2 r] end.
  cbn in Hthrow. subst r. cbn.
  repeat split; by case_bool_decide.
Qed.

(** C10 (as amended). When the token exchange succeeds and the identity
    fetch fails, the session flags are left as they were, the error is
    thrown again, and the new token stays in local storage unless the fetch
    was rejected with 401, in which case the response interceptor has
    deleted it. *)
Theorem login_identity_fetch_fails b ctor credentials w resp error :
  serve_login b (bearer (localStorage w !! "access_token")) credentials = Response2xx resp ->
  serve_me b (bearer (Some (access_token resp))) = Rejected error ->
  let w' := exec (login b ctor credentials) w in
  outcome (login b ctor credentials) w = Throw (EAxios error) /\
  isAuthenticated (store w') = isAuthenticated (store w) /\
  user (store w') = user (store w) /\
  localStorage w' !! "access_token" =
    (if bool_decide (response_status error = Some 401) then None
     else Some (access_token resp)).
Proof.
  intros Hl Hm.
  destruct (login_fetch_fails_run b ctor credentials w resp error Hl Hm)
    as (w1 & w2 & Hls & Hu & Ha & -> & Hls' & Hu' & Ha' & _ & Hthrow).
  unfold exec, outcome. cbn zeta.
  destruct (interceptor_leaves_session (A:=User) error w1) as (Hst & _).
  cbn zeta in Hst.
  repeat split.
  - done.
  - by rewrite Ha', Hst, Ha.
  - by rewrite Hu', Hst, Hu.
  - rewrite Hls'. case_bool_decide as H401.
    + rewrite interceptor_401 by done. cbn. apply lookup_delete_eq.
    + destruct (interceptor_keeps_credential (A:=User) error w1 H401) as [-> _].
      by rewrite Hls, lookup_insert_eq.
Qed.

Lemma login_identity_fetch_fails_witness :
  let b := service (rejection (Some 500)) in
  let w' := exec (login b CtorOk alice_credentials) login_page in
  serve_login b (bearer (localStorage login_page !! "access_token")) alice_credentials
    = Response2xx (mkLoginResponse "token-1" "bearer") /\
  serve_me b (bearer (Some "token-1")) = Rejected (mkAxiosError (Some 500)) /\
  outcome (login b CtorOk alice_credentials) login_page
    = Throw (EAxios (mkAxiosError (Some 500))) /\
  isAuthenticated (store w') = isAuthenticated (store login_page) /\
  user (store w') = user (store login_page) /\
  localStorage w' !! "access_token" =
    (if bool_decide (Some 500 = Some 401) then None else Some "token-1").
Proof.
  split; [reflexivity|]. split; [reflexivity|].
  apply (login_identity_fetch_fails (service (rejection (Some 500))) CtorOk
           alice_credentials login_page (mkLoginResponse "token-1" "bearer")
           (mkAxiosError (Some 500))); reflexivity.
Defined.

(** C10 as stated fails: a 401 on the identity fetch removes the token that
    the login has just stored. *)
Lemma login_identity_fetch_401_drops_token :
  let b := service (rejection (Some 401)) in
  let w' := exec (login b CtorOk alice_credentials) login_page in
  serve_login b (bearer (localStorage login_page !! "access_token")) alice_credentials
    = Response2xx (mkLoginResponse "token-1" "bearer") /\
  serve_me b (bearer (Some "token-1")) = Rejected (mkAxiosError (Some 401)) /\
  localStorage w' !! "access_token" <> Some "token-1".
Proof. vm_compute. repeat split; discriminate. Qed.

(** *** C3: a 401 anywhere in the gateway *)

Lemma initializeAuth_no_credential b ctor w :
  truthy (localStorage w !! "access_token") = false ->
  initializeAuth b ctor w =
    (emit (StoreSet None (Some false) (Some false))
       (with_store (mkAuthState (user (store w)) false false) w), Ok tt).
Proof.
  intros H. unfold initializeAuth, localStorage_getItem, set. mrun. by rewrite H.
Qed.

(** C3 (as amended). A 401 on any outbound call makes the interceptor delete
    the persisted credential, navigate to the login entry point, show
    exactly one session-expired alert and pass the error on.  It does not
    touch the session store or the channel: the session is unauthenticated
    once the page load that the navigation causes has run [initializeAuth]
    again, which finds no credential. *)
Theorem gateway_401 {A} (serve : option string -> Reply A) w error :
  serve (bearer (localStorage w !! "access_token")) = Rejected error ->
  response_status error = Some 401 ->
  let w' := exec (api_call serve) w in
  outcome (api_call serve) w = Throw (EAxios error) /\
  localStorage w' !! "access_token" = None /\
  location_href w' = "/login" /\
  toasts w' = toasts w ++ [session_expired_alert] /\
  store w' = store w /\
  notificationSocket w' = notificationSocket w /\
  heap w' = heap w /\
  (forall b ctor,
     store (exec (initializeAuth b ctor) (page_load w')) = mkAuthState None false false).
Proof.
  intros Hs H401. unfold exec, outcome. cbn zeta.
  rewrite (api_call_rejected serve w error Hs), interceptor_401 by done.
  cbn [fst snd].
  repeat split; try done.
  - cbn. apply lookup_delete_eq.
  - by toasts_simpl.
  - intros b ctor. rewrite initializeAuth_no_credential; [done|].
    cbn. by rewrite lookup_delete_eq.
Qed.

Lemma gateway_401_witness :
  let serve := serve_me (service (rejection (Some 401))) in
  let w := alice_session Json.parse in
  let w' := exec (api_call serve) w in
  serve (bearer (localStorage w !! "access_token")) = Rejected (mkAxiosError (Some 401)) /\
  response_status (mkAxiosError (Some 401)) = Some 401 /\
  outcome (api_call serve) w = Throw (EAxios (mkAxiosError (Some 401))) /\
  localStorage w' !! "access_token" = None /\
  location_href w' = "/login" /\
  toasts w' = toasts w ++ [session_expired_alert] /\
  store w' = store w /\
  notificationSocket w' = notificationSocket w /\
  heap w' = heap w /\
  (forall b ctor,
     store (exec (initializeAuth b ctor) (page_load w')) = mkAuthState None false false).
Proof.
  split; [reflexivity|]. split; [reflexivity|].
  apply (gateway_401 (serve_me (service (rejection (Some 401))))
           (alice_session Json.parse) (mkAxiosError (Some 401))); reflexivity.
Defined.

(** C3 as stated fails: after a 401 on a call made in Alice's session, the
    session store still says authenticated. *)
Lemma gateway_401_session_still_authenticated :
  let call := authAPI_getCurrentUser (service (rejection (Some 401))) in
  let w := alice_session Json.parse in
  isAuthenticated (store w) = true /\
  outcome call w = Throw (EAxios (mkAxiosError (Some 401))) /\
  isAuthenticated (store (exec call w)) <> false /\
  user (store (exec call w)) = Some alice.
Proof. vm_compute. repeat split; discriminate. Qed.

(** *** C4: initializeAuth with a stale credential *)

Lemma initializeAuth_fetch_fails_run b ctor w token error :
  localStorage w !! "access_token" = Some token ->
  token <> EmptyString ->
  serve_me b (Some ("Bearer " +:+ token)) = Rejected error ->
  initializeAuth b ctor w =
    (let w1 := (@response_interceptor_rejected User error w).1 in
     emit (StoreSet (Some None) (Some false) (Some false))
       (with_store (mkAuthState None false false)
          (emit (StorageRemove "access_token")
             (with_localStorage (delete "access_token" (localStorage w1)) w1))),
     Ok tt).
Proof.
  intros Htok Hne Hm.
  assert (truthy (Some token) = true) as Htruthy.
  { cbn. destruct (String.eqb_spec token EmptyString); [done|reflexivity]. }
  assert (bearer (localStorage w !! "access_token") = Some ("Bearer " +:+ token)) as Hb.
  { rewrite Htok. unfold bearer. by rewrite Htruthy. }
  unfold initializeAuth, authAPI_getCurrentUser, localStorage_getItem,
    localStorage_removeItem, set.
  mrun. rewrite Htok, Htruthy. cbn.
  erewrite api_call_rejected by (rewrite Hb; exact Hm).
  pose proof (@interceptor_throws User error w) as Hthrow.
  destruct (@response_interceptor_rejected User error w) as [w1 r].
  cbn in Hthrow. subst r. reflexivity.
Qed.

(** C4 (as amended). When [initializeAuth] starts with a persisted
    credential and the identity fetch fails, it returns normally, the
    credential is deleted and the session ends unauthenticated;
    [initializeAuth] itself shows no alert, so the alerts of this path are
    exactly those of the response interceptor for the failure: the
    session-expired alert for a 401, the permission alert for a 403, the
    server-error alert from 500 on, the network alert when no response
    came, and none for any other status. *)
Theorem initializeAuth_fetch_fails b ctor w token error :
  localStorage w !! "access_token" = Some token ->
  token <> EmptyString ->
  serve_me b (Some ("Bearer " +:+ token)) = Rejected error ->
  let w' := exec (initializeAuth b ctor) w in
  outcome (initializeAuth b ctor) w = Ok tt /\
  localStorage w' !! "access_token" = None /\
  store w' = mkAuthState None false false /\
  toasts w' = toasts w ++ gateway_alerts error.
Proof.
  intros Htok Hne Hm. unfold exec, outcome.
  rewrite (initializeAuth_fetch_fails_run b ctor w token error Htok Hne Hm).
  cbn [fst snd]. repeat split.
  - cbn. apply lookup_delete_eq.
  - toasts_simpl. fold (toasts (@response_interceptor_rejected User error w).1).
    apply interceptor_alerts.
Qed.

Lemma initializeAuth_fetch_fails_witness :
  let b := service (rejection (Some 404)) in
  let w' := exec (initializeAuth b CtorOk) returning_page in
  localStorage returning_page !! "access_token" = Some "stale-token" /\
  "stale-token" <> EmptyString /\
  serve_me b (Some ("Bearer " +:+ "stale-token")) = Rejected (mkAxiosError (Some 404)) /\
  outcome (initializeAuth b CtorOk) returning_page = Ok tt /\
  localStorage w' !! "access_token" = None /\
  store w' = mkAuthState None false false /\
  toasts w' = toasts returning_page ++ gateway_alerts (mkAxiosError (Some 404)).
Proof.
  split; [reflexivity|]. split; [discriminate|]. split; [reflexivity|].
  apply (initializeAuth_fetch_fails (service (rejection (Some 404))) CtorOk
           returning_page "stale-token" (mkAxiosError (Some 404)));
    [reflexivity | discriminate | reflexivity].
Defined.

(** C4 as stated fails: with a stale credential and a 401 on the identity
    fetch, the session-expired alert is shown. *)
Lemma initializeAuth_401_shows_alert :
  let b := service (rejection (Some 401)) in
  let w' := exec (initializeAuth b CtorOk) returning_page in
  localStorage returning_page !! "access_token" = Some "stale-token" /\
  serve_me b (bearer (Some "stale-token")) = Rejected (mkAxiosError (Some 401)) /\
  toasts returning_page = [] /\
  toasts w' = [session_expired_alert] /\
  toasts w' <> [].
Proof. vm_compute. repeat split; discriminate. Qed.

(** *** C5 and C7: logout *)

Lemma disconnect_run w :
  disconnect w =
    (match ws (notificationSocket w) with
     | Some k =>
         set_ws None (emit (SocketClose k) (update_socket k begin_close (emit CallDisconnect w)))
     | None => emit CallDisconnect w
     end, Ok tt).
Proof.
  unfold disconnect, WebSocket_close. mrun.
  by destruct (ws (notificationSocket w)).
Qed.

Lemma logout_run w :
  logout w =
    (let w1 := (disconnect
                  (emit (StorageRemove "access_token")
                     (with_localStorage (delete "access_token" (localStorage w)) w))).1 in
     emit (Navigate "/login")
       (with_href "/login"
          (emit goodbye_alert
             (emit (StoreSet (Some None) (Some false) (Some false))
                (with_store (mkAuthState None false false) w1)))),
     Ok tt).
Proof.
  unfold logout, localStorage_removeItem, set, toast, set_location_href. mrun.
  rewrite disconnect_run. by destruct (ws (notificationSocket w)).
Qed.

Lemma begin_close_not_open s : readyState (begin_close s) <> OPEN.
Proof. unfold begin_close. by destruct (readyState s) eqn:E; cbn; rewrite ?E. Qed.

Lemma update_socket_heap_lookup k f w s :
  heap w !! k = Some s -> heap (update_socket k f w) !! k = Some (f s).
Proof.
  intros H. unfold update_socket. rewrite H. cbn.
  apply list_lookup_insert_eq. by eapply lookup_lt_Some.
Qed.

Lemma update_socket_heap_absent k f w :
  heap w !! k = None -> update_socket k f w = w.
Proof. intros H. unfold update_socket. by rewrite H. Qed.

(** C5 (as amended). [logout] disconnects the channel before it clears the
    identity: the trace of a logout is the removal of the credential, the
    call of [disconnect] with the close of the held socket, and only then
    the store update, the alert and the redirect; afterwards no socket is
    held and the one that was held is no longer open.  The 401 branch of the
    response interceptor neither tears the channel down nor clears the
    identity. *)
Theorem logout_disconnects_before_clearing w :
  let w' := exec logout w in
  (trace w' =
     trace w ++
     [StorageRemove "access_token"; CallDisconnect] ++
     match ws (notificationSocket w) with
     | Some k => [SocketClose k]
     | None => []
     end ++
     [StoreSet (Some None) (Some false) (Some false); goodbye_alert; Navigate "/login"]) /\
  ws (notificationSocket w') = None /\
  held_is_open w' = false /\
  (forall k s, ws (notificationSocket w) = Some k -> heap w' !! k = Some s ->
               readyState s <> OPEN) /\
  user (store w') = None /\
  isAuthenticated (store w') = false /\
  (forall A,
     let w401 := exec (@response_interceptor_rejected A (mkAxiosError (Some 401))) w in
     notificationSocket w401 = notificationSocket w /\
     heap w401 = heap w /\
     store w401 = store w /\
     CallDisconnect ∉ drop (length (trace w)) (trace w401)).
Proof.
  unfold exec. cbn zeta. rewrite logout_run, disconnect_run. cbn [fst snd].
  split; [|split; [|split; [|split; [|split; [|split]]]]].
  - cbn. destruct (ws (notificationSocket w)) as [k|]; cbn.
    + unfold update_socket. cbn. destruct (heap w !! k); cbn; by rewrite <- !app_assoc.
    + by rewrite <- !app_assoc.
  - cbn. by destruct (ws (notificationSocket w)) eqn:E.
  - unfold held_is_open, held. cbn.
    destruct (ws (notificationSocket w)) eqn:E; cbn; [done|]. by rewrite E.
  - intros k s Hk Hs. cbn in Hs. rewrite Hk in Hs. cbn in Hs.
    unfold update_socket in Hs. cbn in Hs.
    destruct (heap w !! k) as [s0|] eqn:E; cbn in Hs.
    + rewrite list_lookup_insert_eq in Hs by (by eapply lookup_lt_Some).
      injection Hs as <-. apply begin_close_not_open.
    + congruence.
  - done.
  - done.
  - intros A. cbn zeta. unfold exec. rewrite interceptor_401 by done.
    cbn. repeat split.
    rewrite <- !app_assoc, drop_app_length.
    rewrite list_elem_of_In. cbn. intuition discriminate.
Qed.

(** C5 as stated fails on the 401 path: after the interceptor has handled a
    401 in Alice's session her socket is still held and open, and her
    identity is still in the store. *)
Lemma gateway_401_leaves_channel_open :
  let call := authAPI_getCurrentUser (service (rejection (Some 401))) in
  let w := alice_session Json.parse in
  let w' := exec call w in
  isAuthenticated (store w) = true /\
  held_is_open w = true /\
  outcome call w = Throw (EAxios (mkAxiosError (Some 401))) /\
  held_is_open w' = true /\
  open_connections w' = 1%nat /\
  user (store w') = Some alice.
Proof. vm_compute. repeat split. Qed.

(** C7 (as amended). [logout] never throws, and a second call leaves local
    storage, the session store, the channel, the sockets, the timers and the
    location as the first call left them; it does show the goodbye alert
    (and redirect) once more. *)
Theorem logout_twice w :
  let w1 := exec logout w in
  let w2 := exec logout w1 in
  outcome logout w = Ok tt /\
  outcome logout w1 = Ok tt /\
  localStorage w2 = localStorage w1 /\
  store w2 = store w1 /\
  notificationSocket w2 = notificationSocket w1 /\
  heap w2 = heap w1 /\
  timers w2 = timers w1 /\
  location_href w2 = location_href w1 /\
  toasts w2 = toasts w1 ++ [goodbye_alert] /\
  trace w2 = trace w1 ++
    [StorageRemove "access_token"; CallDisconnect;
     StoreSet (Some None) (Some false) (Some false); goodbye_alert; Navigate "/login"].
Proof.
  cbn zeta. unfold exec, outcome.
  assert (ws (notificationSocket (logout w).1) = None) as Hws.
  { rewrite logout_run, disconnect_run. cbn. by destruct (ws (notificationSocket w)) eqn:E. }
  assert (store (logout w).1 = mkAuthState None false false) as Hst.
  { by rewrite logout_run. }
  assert (localStorage (logout w).1 !! "access_token" = None) as Hls.
  { rewrite logout_run, disconnect_run. cbn.
    destruct (ws (notificationSocket w)) as [k|]; cbn.
    - unfold update_socket; cbn. destruct (heap w !! k); cbn; apply lookup_delete_eq.
    - apply lookup_delete_eq. }
  rewrite (logout_run (logout w).1), (disconnect_run _). cbn [fst snd].
  cbn. rewrite Hws. cbn. rewrite Hst.
  repeat split; try by rewrite logout_run.
  - by apply delete_id.
  - by toasts_simpl.
  - by rewrite <- !app_assoc.
Qed.

(** C7 as stated fails: the second [logout] is not a no-op, it shows the
    goodbye alert a second time. *)
Lemma logout_twice_two_alerts :
  let w1 := exec logout (alice_session Json.parse) in
  let w2 := exec logout w1 in
  toasts w1 = [welcome_alert alice; goodbye_alert] /\
  toasts w2 = [welcome_alert alice; goodbye_alert; goodbye_alert] /\
  w2 <> w1.
Proof.
  cbn zeta. split; [by vm_compute|]. split; [by vm_compute|].
  intros H. apply (f_equal toasts) in H. vm_compute in H. discriminate.
Qed.

(** ** C8: the message handler *)

(** [handleMessage] either ignores the envelope, or shows one alert, or
    throws before it has done anything. *)
Lemma handleMessage_cases data w :
  handleMessage data w = (w, Ok tt) \/
  (exists text, handleMessage data w =
     (emit (Toast toast_success text (Some (mkToastOptions 5000 "top-right"))) w, Ok tt)) \/
  (exists e, handleMessage data w = (w, Throw e)).
Proof.
  unfold handleMessage, toast. mrun.
  destruct (Get (Some data) "type") as [ty|e]; [|by right; right; eexists].
  destruct (strict_eq_string ty "ticket_updated"); [|by left].
  destruct (Get (Some data) "action") as [action|e]; [|by right; right; eexists].
  destruct (Get (Some data) "ticket") as [ticket|e]; [|by right; right; eexists].
  destruct (Get ticket "title") as [title|e]; [|by right; right; eexists].
  destruct (ToString title) as [text|e]; [|by right; right; eexists].
  right; left. by eexists.
Qed.

(** C8. No exception escapes the message handler, whatever the frame: a
    frame that does not parse is logged and dropped, and so is an envelope
    on which [handleMessage] throws; neither shows an alert, and the handler
    touches no socket.  The same holds for the delivery of a message event to
    a socket. *)
Theorem onmessage_never_throws (JSON_parse : string -> Result JSON) (d : MessageData) (w : World) :
  let w' := exec (ws_onmessage JSON_parse d) w in
  outcome (ws_onmessage JSON_parse d) w = Ok tt /\
  heap w' = heap w /\
  notificationSocket w' = notificationSocket w /\
  timers w' = timers w /\
  match JSON_parse (data_text d) with
  | Throw _ => trace w' = trace w ++ [parse_error_log] /\ toasts w' = toasts w
  | Ok data =>
      match outcome (handleMessage data) w with
      | Throw _ => trace w' = trace w ++ [parse_error_log] /\ toasts w' = toasts w
      | Ok _ => w' = exec (handleMessage data) w
      end
  end /\
  (forall k, outcome (deliver_message JSON_parse k d) w = Ok tt /\
             heap (exec (deliver_message JSON_parse k d) w) = heap w).
Proof.
  assert (outcome (ws_onmessage JSON_parse d) w = Ok tt /\
          heap (exec (ws_onmessage JSON_parse d) w) = heap w) as Hbase.
  { unfold ws_onmessage, console. mrun.
    destruct (JSON_parse (data_text d)) as [data|e]; cbn; [|done].
    destruct (handleMessage_cases data w) as [H|[[text H]|[e H]]]; by rewrite H. }
  assert (forall k, outcome (deliver_message JSON_parse k d) w = Ok tt /\
                    heap (exec (deliver_message JSON_parse k d) w) = heap w) as Hdeliver.
  { intros k. unfold deliver_message. mrun.
    destruct (heap w !! k) as [s|]; [|done].
    destruct (bool_decide (readyState s = OPEN) && onmessage s); [|done].
    apply Hbase. }
  cbn zeta. destruct Hbase as [Hout Hheap].
  split; [done|]. split; [done|].
  unfold ws_onmessage, console. mrun.
  destruct (JSON_parse (data_text d)) as [data|e]; cbn.
  - destruct (handleMessage_cases data w) as [H|[[text H]|[e H]]]; rewrite H; cbn;
      repeat split; try done; try (by toasts_simpl); apply Hdeliver.
  - repeat split; try done; try (by toasts_simpl); apply Hdeliver.
Qed.

(** The scenarios of the specification on Alice's open socket. *)
Example not_json_is_dropped :
  let w := alice_session Json.parse in
  let w' := exec (deliver_message Json.parse 0 (TextData "not-json")) w in
  Json.parse "not-json" = Throw (ESyntaxError "Unexpected token in JSON") /\
  outcome (deliver_message Json.parse 0 (TextData "not-json")) w = Ok tt /\
  trace w' = trace w ++ [parse_error_log] /\
  toasts w' = toasts w /\
  held_is_open w' = true.
Proof. by vm_compute. Qed.

Example malformed_envelope_is_dropped :
  let w := alice_session Json.parse in
  let frame := TextData (json_text "{'type':'ticket_updated','action':'created'}") in
  let w' := exec (deliver_message Json.parse 0 frame) w in
  Json.parse (data_text frame) =
    Ok (JObject [("type", JString "ticket_updated"); ("action", JString "created")]) /\
  outcome (handleMessage (JObject [("type", JString "ticket_updated");
                                   ("action", JString "created")])) w =
    Throw (ETypeError "Cannot read properties of undefined (reading 'title')") /\
  outcome (deliver_message Json.parse 0 frame) w = Ok tt /\
  trace w' = trace w ++ [parse_error_log] /\
  held_is_open w' = true.
Proof. by vm_compute. Qed.

Example binary_frame_is_dropped :
  let w := alice_session Json.parse in
  let w' := exec (deliver_message Json.parse 0 BlobData) w in
  outcome (deliver_message Json.parse 0 BlobData) w = Ok tt /\
  trace w' = trace w ++ [parse_error_log].
Proof. by vm_compute. Qed.

Example assigned_ticket_is_announced :
  let w := alice_session Json.parse in
  let frame := TextData (json_text
    "{'type':'ticket_updated','action':'assigned','ticket':{'title':'Fix leak'}}") in
  let w' := exec (deliver_message Json.parse 0 frame) w in
  toasts w' = toasts w ++
    [Toast toast_success "Заявка назначена: Fix leak" (Some (mkToastOptions 5000 "top-right"))] /\
  notificationSocket w' = notificationSocket w.
Proof. by vm_compute. Qed.

(** ** C9: disconnect and the close handler *)

Lemma attemptReconnect_below w :
  reconnectAttempts (notificationSocket w) < maxReconnectAttempts ->
  attemptReconnect w =
    (emit (SetTimeout reconnectInterval)
       (with_timers (timers w ++ [mkTimer ReconnectTimer (now w + reconnectInterval) None])
          (emit (Console console_log
                   ("Попытка переподключения " +:+
                    pretty (reconnectAttempts (notificationSocket w) + 1) +:+ "/" +:+
                    pretty maxReconnectAttempts))
             (set_reconnectAttempts (reconnectAttempts (notificationSocket w) + 1) w))),
     Ok tt).
Proof.
  intros H. unfold attemptReconnect, setTimeout, console. munfold. cbn.
  case_bool_decide; [lia|]. reflexivity.
Qed.

Lemma attemptReconnect_ceiling w :
  reconnectAttempts (notificationSocket w) >= maxReconnectAttempts ->
  attemptReconnect w =
    (emit (Console console_log "Превышено максимальное количество попыток переподключения") w,
     Ok tt).
Proof.
  intros H. unfold attemptReconnect, setTimeout, console. munfold. cbn.
  case_bool_decide; [|lia]. reflexivity.
Qed.

(** The close event on a socket that is not yet closed and carries the
    handler. *)
Lemma deliver_close_run k s w :
  heap w !! k = Some s -> readyState s <> CLOSED -> onclose s = true ->
  deliver_close k w =
    attemptReconnect
      (emit (Console console_log "🔌 WebSocket соединение закрыто")
         (with_heap (<[k := set_readyState CLOSED s]> (heap w)) w)).
Proof.
  intros Hs Hr Hc. unfold deliver_close, ws_onclose, console. munfold. cbn.
  rewrite Hs. case_bool_decide; [done|]. cbn. unfold update_socket. rewrite Hs, Hc.
  cbn. by destruct (attemptReconnect _).
Qed.

Lemma elapse_run dt w : 0 <= dt -> elapse dt w = (with_now (now w + dt) w, Ok tt).
Proof. intros H. unfold elapse. munfold. by rewrite Z.max_r. Qed.

(** The reconnect timer at the end of the timer list fires when it is due:
    it is removed and [createConnection] runs. *)
Lemma fire_reconnect_timer (w : World) (T : list Timer) (t : Z) ctor :
  timers w = T ++ [mkTimer ReconnectTimer t None] ->
  t <= now w ->
  fire_timer (length T) ctor w = createConnection ctor (with_timers T w).
Proof.
  intros HT Hdue. unfold fire_timer, reschedule. munfold. cbn.
  rewrite HT, list_lookup_middle by done. cbn.
  case_bool_decide; [|lia]. cbn.
  by rewrite HT, delete_middle, app_nil_r.
Qed.

Lemma deliver_error_run k s w :
  heap w !! k = Some s -> onerror s = true ->
  deliver_error k w = (emit (Console console_error "❌ Ошибка WebSocket:") w, Ok tt).
Proof.
  intros Hs He. unfold deliver_error, ws_onerror, console. munfold. cbn.
  by rewrite Hs, He.
Qed.

Lemma run_cons JSON_parse a l w :
  run JSON_parse (a :: l) w =
    match step JSON_parse a w with
    | (w', Ok _) => run JSON_parse l w'
    | (w', Throw e) => (w', Throw e)
    end.
Proof. reflexivity. Qed.

Lemma run_app JSON_parse l1 l2 w :
  run JSON_parse (l1 ++ l2) w =
    match run JSON_parse l1 w with
    | (w', Ok _) => run JSON_parse l2 w'
    | (w', Throw e) => (w', Throw e)
    end.
Proof.
  revert w. induction l1 as [|a l1 IH]; intros w; [done|].
  cbn [app]. rewrite !run_cons. destruct (step JSON_parse a w) as [w' [[]|e]]; [|done].
  apply IH.
Qed.

Lemma held_is_open_None w : ws (notificationSocket w) = None -> held_is_open w = false.
Proof. intros H. unfold held_is_open, held. by rewrite H. Qed.

(** C9. [disconnect] on an open connection leaves the close handler on the
    socket.  When the close event of that socket arrives, [dt] milliseconds
    later, the handler counts a reconnection attempt and sets the reconnect
    timer; when the timer fires, a new socket is created and held, although
    the caller had asked to disconnect. *)
Theorem disconnect_does_not_suppress_reconnect w k s dt :
  ws (notificationSocket w) = Some k ->
  heap w !! k = Some s ->
  readyState s = OPEN ->
  onclose s = true ->
  reconnectAttempts (notificationSocket w) < maxReconnectAttempts ->
  0 <= dt ->
  let w1 := exec disconnect w in
  let w2 := exec (deliver_close k) (exec (elapse dt) w1) in
  let w3 := exec (fire_timer (length (timers w)) CtorOk)
              (exec (elapse reconnectInterval) w2) in
  ws (notificationSocket w1) = None /\
  heap w1 !! k = Some (set_readyState CLOSING s) /\
  onclose (set_readyState CLOSING s) = true /\
  timers w1 = timers w /\
  reconnectAttempts (notificationSocket w2) = reconnectAttempts (notificationSocket w) + 1 /\
  timers w2 = timers w ++ [mkTimer ReconnectTimer (now w + dt + reconnectInterval) None] /\
  ws (notificationSocket w3) = Some (length (heap w)) /\
  heap w3 !! length (heap w) =
    Some (connecting_socket (wsUrl w) (now w + dt + reconnectInterval)).
Proof.
  intros Hws Hs Hopen Hclose Hbelow Hdt. cbn zeta. unfold exec.
  assert (k < length (heap w))%nat as Hk by (by eapply lookup_lt_Some).
  rewrite disconnect_run, Hws. cbn [fst].
  assert (begin_close s = set_readyState CLOSING s) as Hbc.
  { unfold begin_close. by rewrite Hopen. }
  unfold update_socket. cbn [heap emit with_trace]. rewrite Hs, Hbc.
  rewrite elapse_run by done. cbn [fst].
  erewrite deliver_close_run; cycle 1.
  { cbn. by apply list_lookup_insert_eq. }
  { done. }
  { done. }
  rewrite attemptReconnect_below by exact Hbelow. cbn [fst].
  rewrite elapse_run by done. cbn [fst].
  erewrite fire_reconnect_timer; cycle 1.
  { cbn. reflexivity. }
  { cbn. lia. }
  rewrite createConnection_new by (by apply held_is_open_None).
  cbn. rewrite !length_insert.
  repeat split; try done.
  - by apply list_lookup_insert_eq.
  - by rewrite list_lookup_middle by (by rewrite !length_insert).
Qed.

Lemma disconnect_does_not_suppress_reconnect_witness :
  let w := alice_session Json.parse in
  let s := mkWebSocket "ws://localhost:3000/api/tickets/ws/7" OPEN true true true true 0 in
  let w1 := exec disconnect w in
  let w2 := exec (deliver_close 0) (exec (elapse 250) w1) in
  let w3 := exec (fire_timer (length (timers w)) CtorOk)
              (exec (elapse reconnectInterval) w2) in
  ws (notificationSocket w) = Some 0%nat /\
  heap w !! 0%nat = Some s /\
  readyState s = OPEN /\
  onclose s = true /\
  reconnectAttempts (notificationSocket w) < maxReconnectAttempts /\
  0 <= 250 /\
  ws (notificationSocket w1) = None /\
  heap w1 !! 0%nat = Some (set_readyState CLOSING s) /\
  onclose (set_readyState CLOSING s) = true /\
  timers w1 = timers w /\
  reconnectAttempts (notificationSocket w2) = reconnectAttempts (notificationSocket w) + 1 /\
  timers w2 = timers w ++ [mkTimer ReconnectTimer (now w + 250 + reconnectInterval) None] /\
  ws (notificationSocket w3) = Some (length (heap w)) /\
  heap w3 !! length (heap w) =
    Some (connecting_socket (wsUrl w) (now w + 250 + reconnectInterval)).
Proof.
  cbn zeta.
  split; [reflexivity|]. split; [reflexivity|]. split; [reflexivity|].
  split; [reflexivity|]. split; [reflexivity|]. split; [lia|].
  apply (disconnect_does_not_suppress_reconnect (alice_session Json.parse) 0%nat
           (mkWebSocket "ws://localhost:3000/api/tickets/ws/7" OPEN true true true true 0)
           250); [reflexivity | reflexivity | reflexivity | reflexivity | reflexivity | lia].
Defined.

(** ** C2: the reconnection schedule *)

Lemma insert_last {A} (h : list A) (x y : A) : <[length h := x]> (h ++ [y]) = h ++ [x].
Proof.
  replace (length h) with (length h + 0)%nat at 1 by lia.
  by rewrite insert_app_r.
Qed.

(** One failed attempt, from a state that waits for the reconnect timer. *)
Lemma failing_round JSON_parse (w : World) (T : list Timer) (c d : Z) :
  timers w = T ++ [mkTimer ReconnectTimer (now w + reconnectInterval) None] ->
  held_is_open w = false ->
  reconnectAttempts (notificationSocket w) = c ->
  0 <= d ->
  let r := run JSON_parse
             [Elapsed reconnectInterval; TimerFired (length T) CtorOk; Elapsed d;
              Errored (length (heap w)); Closed (length (heap w))] w in
  r.2 = Ok tt /\
  constructed_at <$> heap r.1 =
    (constructed_at <$> heap w) ++ [now w + reconnectInterval] /\
  length (heap r.1) = S (length (heap w)) /\
  now r.1 = now w + reconnectInterval + d /\
  held_is_open r.1 = false /\
  reconnectAttempts (notificationSocket r.1) =
    (if bool_decide (c < maxReconnectAttempts) then c + 1 else c) /\
  timers r.1 =
    T ++ (if bool_decide (c < maxReconnectAttempts)
          then [mkTimer ReconnectTimer (now r.1 + reconnectInterval) None] else []) /\
  toasts r.1 = toasts w.
Proof.
  intros HT Hheld Hc Hd. cbn zeta.
  rewrite run_cons. cbn [step]. rewrite elapse_run by done. cbn beta iota.
  rewrite run_cons. cbn [step].
  erewrite fire_reconnect_timer; cycle 1.
  { cbn. exact HT. }
  { cbn. lia. }
  rewrite createConnection_new by exact Hheld. cbn beta iota.
  rewrite run_cons. cbn [step]. rewrite elapse_run by done. cbn beta iota.
  rewrite run_cons. cbn [step].
  erewrite deliver_error_run; cycle 1.
  { cbn. by apply list_lookup_middle. }
  { done. }
  cbn beta iota.
  rewrite run_cons. cbn [step].
  erewrite deliver_close_run; cycle 1.
  { cbn. by apply list_lookup_middle. }
  { done. }
  { done. }
  case_bool_decide as Hlt.
  - rewrite attemptReconnect_below by (cbn; lia). cbn.
    rewrite insert_last.
    repeat split; try done.
    + by rewrite fmap_app.
    + rewrite length_app. cbn. lia.
    + unfold held_is_open, held. cbn. by rewrite list_lookup_middle.
    + by rewrite Hc.
    + by toasts_simpl.
  - rewrite attemptReconnect_ceiling by (cbn; lia). cbn.
    rewrite insert_last.
    repeat split; try done.
    + by rewrite fmap_app.
    + rewrite length_app. cbn. lia.
    + unfold held_is_open, held. cbn. by rewrite list_lookup_middle.
    + by rewrite app_nil_r.
    + by toasts_simpl.
Qed.

Lemma failing_rounds JSON_parse (delays : list Z) :
  forall (w : World) (T : list Timer) (c : Z),
  timers w = T ++ [mkTimer ReconnectTimer (now w + reconnectInterval) None] ->
  held_is_open w = false ->
  reconnectAttempts (notificationSocket w) = c ->
  1 <= c <= maxReconnectAttempts ->
  c + Z.of_nat (length delays) <= maxReconnectAttempts + 1 ->
  Forall (fun d => 0 <= d) delays ->
  let r := run JSON_parse (failing_run (length T) (length (heap w)) delays) w in
  r.2 = Ok tt /\
  constructed_at <$> heap r.1 = (constructed_at <$> heap w) ++ attempt_times (now w) delays /\
  reconnectAttempts (notificationSocket r.1) =
    Z.min (c + Z.of_nat (length delays)) maxReconnectAttempts /\
  timers r.1 =
    T ++ (if bool_decide (c + Z.of_nat (length delays) <= maxReconnectAttempts)
          then [mkTimer ReconnectTimer (now r.1 + reconnectInterval) None] else []) /\
  held_is_open r.1 = false /\
  toasts r.1 = toasts w.
Proof.
  induction delays as [|d rest IH]; intros w T c HT Hheld Hc Hrange Hlen Hpos; cbn zeta.
  - cbn [failing_run length]. change (run JSON_parse [] w) with (w, Ok tt). cbn [fst snd].
    rewrite Z.add_0_r, app_nil_r, Z.min_l by lia.
    rewrite bool_decide_eq_true_2 by lia. by rewrite Hc.
  - cbn [failing_run]. rewrite run_app.
    apply Forall_cons in Hpos as [Hd Hpos].
    destruct (failing_round JSON_parse w T c d HT Hheld Hc Hd)
      as (Hret & Hheap & Hlen1 & Hnow & Hheld1 & Hatt & Htim & Htoast).
    destruct (run JSON_parse _ w) as [w1 r1] eqn:E1 in Hret, Hheap, Hlen1, Hnow, Hheld1, Hatt, Htim, Htoast |- *.
    cbn [fst snd] in *. subst r1. cbn [length] in Hlen.
    case_bool_decide as Hlt.
    + specialize (IH w1 T (c + 1) Htim Hheld1 Hatt).
      rewrite <- Hlen1.
      destruct IH as (Hr & Hh & Ha & Ht & Hho & Hto); [lia | lia | done |].
      repeat split; try done.
      * rewrite Hh, Hheap, Hnow. cbn [attempt_times]. by rewrite <- app_assoc.
      * rewrite Ha. cbn [length]. f_equal. lia.
      * rewrite Ht. cbn [length].
        repeat case_bool_decide; try lia; done.
      * by rewrite Hto.
    + assert (rest = []) as -> by (destruct rest; [done | cbn in Hlen; lia]).
      cbn [failing_run length]. change (run JSON_parse [] w1) with (w1, Ok tt). cbn [fst snd].
      repeat split; try done.
      * rewrite Hatt. unfold maxReconnectAttempts in *. lia.
      * rewrite Htim. rewrite bool_decide_eq_false_2 by (unfold maxReconnectAttempts in *; lia). done.
Qed.

Lemma createConnection_CtorOk_attempts w :
  reconnectAttempts (notificationSocket (createConnection CtorOk w).1) =
  reconnectAttempts (notificationSocket w).
Proof.
  destruct (held_is_open w) eqn:H.
  - by rewrite createConnection_skip.
  - by rewrite createConnection_new.
Qed.

(** C2. After an unexpected close of the held connection, when every
    reconnection attempt fails: each attempt is made [reconnectInterval]
    (5 seconds) after the close before it, the counter is the number of
    closes seen so far, up to the ceiling of 10, and the close that finds the
    counter at 10 (the one after the tenth failed attempt) sets no timer and
    shows no alert.  A later [connect] puts the counter back to zero. *)
Theorem reconnect_schedule JSON_parse (w : World) (k0 : nat) (s0 : WebSocketObj) (delays : list Z) :
  ws (notificationSocket w) = Some k0 ->
  heap w !! k0 = Some s0 ->
  readyState s0 <> CLOSED ->
  onclose s0 = true ->
  reconnectAttempts (notificationSocket w) = 0 ->
  (length delays <= 10)%nat ->
  Forall (fun d => 0 <= d) delays ->
  let actions := Closed k0 :: failing_run (length (timers w)) (length (heap w)) delays in
  let w' := exec (run JSON_parse actions) w in
  outcome (run JSON_parse actions) w = Ok tt /\
  reconnectInterval = seconds 5 /\
  attempts_since (length (heap w)) w' = attempt_times (now w) delays /\
  reconnectAttempts (notificationSocket w') =
    Z.min (Z.of_nat (length delays) + 1) maxReconnectAttempts /\
  timers w' =
    timers w ++
    (if bool_decide (length delays < 10)%nat
     then [mkTimer ReconnectTimer (now w' + reconnectInterval) None] else []) /\
  toasts w' = toasts w /\
  (forall uid,
     reconnectAttempts (notificationSocket (exec (connect uid CtorOk) w')) = 0).
Proof.
  intros Hws Hs Hstate Hclose Hzero Hlen Hpos. cbn zeta. unfold exec, outcome.
  assert (k0 < length (heap w))%nat as Hk by (by eapply lookup_lt_Some).
  rewrite run_cons. cbn [step].
  erewrite deliver_close_run by done.
  rewrite attemptReconnect_below by (cbn; rewrite Hzero; done).
  match goal with |- context [run JSON_parse _ ?w0] => set (w0' := w0) end.
  assert (length (heap w0') = length (heap w)) as Hlen0 by (cbn; by rewrite length_insert).
  assert (constructed_at <$> heap w0' = constructed_at <$> heap w) as Hheap0.
  { cbn. rewrite list_fmap_insert. cbn. apply list_insert_id.
    by rewrite list_lookup_fmap, Hs. }
  rewrite <- Hlen0.
  destruct (failing_rounds JSON_parse delays w0' (timers w) 1)
    as (Hret & Hheap & Hatt & Htim & Hheld & Htoast).
  { reflexivity. }
  { unfold held_is_open, held. cbn. rewrite Hws.
    rewrite list_lookup_insert_eq by done. cbn. by case_bool_decide. }
  { cbn. by rewrite Hzero. }
  { unfold maxReconnectAttempts. lia. }
  { unfold maxReconnectAttempts. lia. }
  { done. }
  cbn zeta in Hret, Hheap, Hatt, Htim, Hheld, Htoast.
  repeat split.
  - done.
  - unfold attempts_since. rewrite fmap_drop, Hheap, Hheap0.
    rewrite drop_app_length'; [done|]. by rewrite length_fmap.
  - rewrite Hatt. f_equal. lia.
  - rewrite Htim. unfold maxReconnectAttempts. repeat case_bool_decide; try lia; done.
  - rewrite Htoast. subst w0'. by toasts_simpl.
  - intros uid. rewrite connect_unfold, createConnection_CtorOk_attempts. done.
Qed.

Lemma reconnect_schedule_witness :
  let w := alice_session Json.parse in
  let s0 := mkWebSocket "ws://localhost:3000/api/tickets/ws/7" OPEN true true true true 0 in
  let delays := [0; 120; 0; 0; 3000; 0; 0; 45; 0; 0] in
  let actions := Closed 0 :: failing_run (length (timers w)) (length (heap w)) delays in
  let w' := exec (run Json.parse actions) w in
  ws (notificationSocket w) = Some 0%nat /\
  heap w !! 0%nat = Some s0 /\
  readyState s0 <> CLOSED /\
  onclose s0 = true /\
  reconnectAttempts (notificationSocket w) = 0 /\
  (length delays <= 10)%nat /\
  Forall (fun d => 0 <= d) delays /\
  outcome (run Json.parse actions) w = Ok tt /\
  reconnectInterval = seconds 5 /\
  attempts_since (length (heap w)) w' = attempt_times (now w) delays /\
  reconnectAttempts (notificationSocket w') =
    Z.min (Z.of_nat (length delays) + 1) maxReconnectAttempts /\
  timers w' =
    timers w ++
    (if bool_decide (length delays < 10)%nat
     then [mkTimer ReconnectTimer (now w' + reconnectInterval) None] else []) /\
  toasts w' = toasts w /\
  (forall uid,
     reconnectAttempts (notificationSocket (exec (connect uid CtorOk) w')) = 0).
Proof.
  cbn zeta.
  split; [reflexivity|]. split; [reflexivity|]. split; [discriminate|].
  split; [reflexivity|]. split; [reflexivity|]. split; [cbn; lia|].
  split; [repeat constructor; lia|].
  apply (reconnect_schedule Json.parse (alice_session Json.parse) 0%nat
           (mkWebSocket "ws://localhost:3000/api/tickets/ws/7" OPEN true true true true 0)
           [0; 120; 0; 0; 3000; 0; 0; 45; 0; 0]);
    [reflexivity | reflexivity | discriminate | reflexivity | reflexivity
    | cbn; lia | repeat constructor; lia].
Defined.

(** The eleven closes of that run, evaluated: ten attempts, the counter at
    its ceiling, only the heartbeat timer of the first connection left, and
    no alert but the welcome of the login. *)
Example eleven_closes :
  let w := alice_session Json.parse in
  let delays := [0; 120; 0; 0; 3000; 0; 0; 45; 0; 0] in
  let w' := exec (run Json.parse (Closed 0 :: failing_run 1 1 delays)) w in
  attempts_since 1 w' =
    [5000; 10000; 15120; 20120; 25120; 33120; 38120; 43120; 48165; 53165] /\
  reconnectAttempts (notificationSocket w') = 10 /\
  timers w' = [mkTimer HeartbeatTimer 30000 (Some 30000)] /\
  open_connections w' = 0%nat /\
  toasts w' = [welcome_alert alice].
Proof. by vm_compute. Qed.

(** ** C1: how many connections can be open *)

(** An attempt is skipped when the held socket is open
    ([createConnection_skip]); [disconnect] closes the held socket and
    clears the reference. *)
Lemma disconnect_closes_and_clears w k s :
  ws (notificationSocket w) = Some k ->
  heap w !! k = Some s ->
  let w' := exec disconnect w in
  ws (notificationSocket w') = None /\
  heap w' !! k = Some (begin_close s) /\
  readyState (begin_close s) <> OPEN.
Proof.
  intros Hws Hs. cbn zeta. unfold exec. rewrite disconnect_run, Hws. cbn.
  repeat split.
  - by apply update_socket_heap_lookup.
  - apply begin_close_not_open.
Qed.

(** A held socket that is still connecting does not count for the guard: a
    new socket is created and held, the old one stays as it is. *)
Lemma connecting_socket_is_not_guarded w k s :
  ws (notificationSocket w) = Some k ->
  heap w !! k = Some s ->
  readyState s = CONNECTING ->
  let w' := exec (createConnection CtorOk) w in
  ws (notificationSocket w') = Some (length (heap w)) /\
  heap w' !! k = Some s /\
  heap w' !! length (heap w) = Some (connecting_socket (wsUrl w) (now w)).
Proof.
  intros Hws Hs Hr. cbn zeta. unfold exec.
  rewrite createConnection_new.
  - cbn. repeat split.
    + by apply lookup_app_l_Some.
    + by apply list_lookup_middle.
  - unfold held_is_open, held. rewrite Hws, Hs, Hr. by case_bool_decide.
Qed.

(** C1. The guard of [createConnection] looks for a held socket whose
    ready-state is OPEN; a socket that is still CONNECTING does not stop a
    second attempt.  Two calls of [connect] before the first socket has
    opened leave two sockets, of which only the second is held, and once the
    browser has opened both, two connections are open. *)
Theorem two_connects_two_open_connections :
  let w1 := exec (run Json.parse [Connect 7 CtorOk; Connect 7 CtorOk]) login_page in
  let w2 := exec (run Json.parse [Opened 0; Opened 1]) w1 in
  readyState <$> heap w1 = [CONNECTING; CONNECTING] /\
  ws (notificationSocket w1) = Some 1%nat /\
  readyState <$> heap w2 = [OPEN; OPEN] /\
  open_connections w2 = 2%nat.
Proof. by vm_compute. Qed.

(** The same happens without a second call by the application, when the
    reconnect timer of an earlier close fires while the socket of a fresh
    [connect] is still connecting. *)
Example reconnect_timer_races_connect :
  let w := exec (run Json.parse
                   [Closed 0; Elapsed 4900; Connect 7 CtorOk; Elapsed 100;
                    TimerFired 1 CtorOk; Opened 1; Opened 2])
             (alice_session Json.parse) in
  readyState <$> heap w = [CLOSED; OPEN; OPEN] /\
  ws (notificationSocket w) = Some 2%nat /\
  open_connections w = 2%nat.
Proof. by vm_compute. Qed.

(** * Further properties *)

(** ** Case equations of the channel operations *)

Lemma attemptReconnect_cases w :
  (reconnectAttempts (notificationSocket w) < maxReconnectAttempts /\
   attemptReconnect w =
     (emit (SetTimeout reconnectInterval)
        (with_timers (timers w ++ [mkTimer ReconnectTimer (now w + reconnectInterval) None])
           (emit (Console console_log
                    ("Попытка переподключения " +:+
                     pretty (reconnectAttempts (notificationSocket w) + 1) +:+ "/" +:+
                     pretty maxReconnectAttempts))
              (set_reconnectAttempts (reconnectAttempts (notificationSocket w) + 1) w))),
      Ok tt)) \/
  (reconnectAttempts (notificationSocket w) >= maxReconnectAttempts /\
   attemptReconnect w =
     (emit (Console console_log "Превышено максимальное количество попыток переподключения") w,
      Ok tt)).
Proof.
  destruct (Z_lt_ge_dec (reconnectAttempts (notificationSocket w)) maxReconnectAttempts).
  - left. split; [done|]. by apply attemptReconnect_below.
  - right. split; [done|]. by apply attemptReconnect_ceiling.
Qed.

Lemma createConnection_cases ctor w :
  (held_is_open w = true /\ createConnection ctor w = (w, Ok tt)) \/
  (held_is_open w = false /\ ctor = CtorOk /\
   createConnection ctor w =
     (set_ws (Some (length (heap w)))
        (emit (SocketNew (length (heap w)) (wsUrl w))
           (with_heap (heap w ++ [connecting_socket (wsUrl w) (now w)]) w)),
      Ok tt)) \/
  (held_is_open w = false /\ ctor = CtorThrows /\
   createConnection ctor w =
     attemptReconnect
       (emit (Console console_error "❌ Ошибка создания WebSocket соединения:") w)).
Proof.
  destruct (held_is_open w) eqn:H.
  - left. split; [done|]. by apply createConnection_skip.
  - right. destruct ctor.
    + left. repeat split. by apply createConnection_new.
    + right. repeat split. by apply createConnection_throws.
Qed.

Lemma with_trace_same w : with_trace (trace w ++ []) w = w.
Proof. destruct w. cbn. by rewrite app_nil_r. Qed.

Lemma ws_onmessage_effect JSON_parse d w :
  (ws_onmessage JSON_parse d w).2 = Ok tt /\
  exists l, (ws_onmessage JSON_parse d w).1 = with_trace (trace w ++ l) w /\
    (l = [] \/
     (exists text, l = [Toast toast_success text (Some (mkToastOptions 5000 "top-right"))]) \/
     l = [parse_error_log]).
Proof.
  unfold ws_onmessage, console. mrun.
  destruct (JSON_parse (data_text d)) as [data|e]; cbn.
  - destruct (handleMessage_cases data w) as [H|[[text H]|[e H]]]; rewrite H; cbn;
      (split; [done|]).
    + exists []. split; [by rewrite with_trace_same | by left].
    + eexists. split; [reflexivity|]. right; left. by eexists.
    + eexists. split; [reflexivity|]. by right; right.
  - split; [done|]. eexists. split; [reflexivity|]. by right; right.
Qed.

Lemma run_preserves JSON_parse (P : World -> Prop) :
  (forall a w, P w -> P (step JSON_parse a w).1) ->
  forall l w, P w -> P (run JSON_parse l w).1.
Proof.
  intros Hstep l. induction l as [|a l IH]; intros w HP; [done|].
  rewrite run_cons. specialize (Hstep a w HP).
  destruct (step JSON_parse a w) as [w' [[]|e]]; cbn in *; [by apply IH | done].
Qed.

Lemma attemptReconnect_counter w :
  counter_in_range w -> counter_in_range (attemptReconnect w).1.
Proof.
  unfold counter_in_range. intros H.
  destruct (attemptReconnect_cases w) as [[Hlt ->]|[Hge ->]]; cbn; lia.
Qed.

Lemma createConnection_counter ctor w :
  counter_in_range w -> counter_in_range (createConnection ctor w).1.
Proof.
  intros H. destruct (createConnection_cases ctor w) as [[_ ->]|[(_ & _ & ->)|(_ & _ & ->)]]; try done.
  by apply attemptReconnect_counter.
Qed.

Lemma deliver_open_run k s w :
  heap w !! k = Some s -> readyState s = CONNECTING -> onopen s = true ->
  deliver_open k w =
    (emit (SetInterval 30000)
       (with_timers (timers w ++ [mkTimer HeartbeatTimer (now w + 30000) (Some 30000)])
          (set_reconnectAttempts 0
             (emit (Console console_log "🔌 WebSocket соединение установлено")
                (with_heap (<[k := set_readyState OPEN s]> (heap w)) w)))),
     Ok tt).
Proof.
  intros Hs Hr Ho. unfold deliver_open, ws_onopen, setInterval, console, update_socket. mrun.
  rewrite Hs. cbn. rewrite bool_decide_eq_true_2 by done. cbn. by rewrite Hs, Ho.
Qed.

Lemma deliver_open_cases k w :
  deliver_open k w = (w, Ok tt) \/
  (exists s, heap w !! k = Some s /\ readyState s = CONNECTING /\ onopen s = false /\
     deliver_open k w = (with_heap (<[k := set_readyState OPEN s]> (heap w)) w, Ok tt)) \/
  (exists s, heap w !! k = Some s /\ readyState s = CONNECTING /\ onopen s = true /\
     deliver_open k w =
       (emit (SetInterval 30000)
          (with_timers (timers w ++ [mkTimer HeartbeatTimer (now w + 30000) (Some 30000)])
             (set_reconnectAttempts 0
                (emit (Console console_log "🔌 WebSocket соединение установлено")
                   (with_heap (<[k := set_readyState OPEN s]> (heap w)) w)))),
        Ok tt)).
Proof.
  unfold deliver_open, ws_onopen, setInterval, console, update_socket. mrun.
  destruct (heap w !! k) as [s|] eqn:Hs; [|by left]. cbn.
  case_bool_decide as Hr; [|by left]. cbn. rewrite Hs.
  destruct (onopen s) eqn:Ho; cbn.
  - right; right. by exists s.
  - right; left. by exists s.
Qed.

Lemma deliver_close_cases k w :
  deliver_close k w = (w, Ok tt) \/
  (exists s, heap w !! k = Some s /\ readyState s <> CLOSED /\ onclose s = false /\
     deliver_close k w = (with_heap (<[k := set_readyState CLOSED s]> (heap w)) w, Ok tt)) \/
  (exists s, heap w !! k = Some s /\ readyState s <> CLOSED /\ onclose s = true /\
     deliver_close k w =
       attemptReconnect
         (emit (Console console_log "🔌 WebSocket соединение закрыто")
            (with_heap (<[k := set_readyState CLOSED s]> (heap w)) w))).
Proof.
  destruct (heap w !! k) as [s|] eqn:Hs.
  2: { left. unfold deliver_close. mrun. by rewrite Hs. }
  destruct (decide (readyState s = CLOSED)) as [Hr|Hr].
  { left. unfold deliver_close. mrun. rewrite Hs. cbn. by rewrite bool_decide_eq_true_2. }
  destruct (onclose s) eqn:Ho.
  - right; right. exists s. repeat split; try done. by apply deliver_close_run.
  - right; left. exists s. repeat split; try done.
    unfold deliver_close, update_socket. mrun. rewrite Hs. cbn.
    rewrite bool_decide_eq_false_2 by done. cbn. by rewrite Hs, Ho.
Qed.

Lemma deliver_error_cases k w :
  deliver_error k w = (w, Ok tt) \/
  deliver_error k w = (emit (Console console_error "❌ Ошибка WebSocket:") w, Ok tt).
Proof.
  unfold deliver_error, ws_onerror, console. mrun.
  destruct (heap w !! k) as [s|]; [|by left]. destruct (onerror s); [by right|by left].
Qed.

Lemma deliver_message_cases JSON_parse k d w :
  deliver_message JSON_parse k d w = (w, Ok tt) \/
  (exists s, heap w !! k = Some s /\ readyState s = OPEN /\ onmessage s = true /\
     deliver_message JSON_parse k d w = ws_onmessage JSON_parse d w).
Proof.
  unfold deliver_message. mrun.
  destruct (heap w !! k) as [s|] eqn:Hs; [|by left]. cbn.
  case_bool_decide as Hr; cbn; [|by left].
  destruct (onmessage s) eqn:Ho; [|by left]. right. by exists s.
Qed.

Lemma heartbeat_cases w :
  (held_is_open w = false /\ heartbeat w = (w, Ok tt)) \/
  (exists k, held_is_open w = true /\ ws (notificationSocket w) = Some k /\
     heartbeat w = (emit (SocketSend k "ping") w, Ok tt)).
Proof.
  unfold heartbeat, WebSocket_send. mrun.
  destruct (held_is_open w) eqn:H; [|by left].
  right. unfold held_is_open, held in H.
  destruct (ws (notificationSocket w)) as [k|]; [|done]. by exists k.
Qed.

Lemma fire_timer_cases i ctor w :
  fire_timer i ctor w = (w, Ok tt) \/
  (exists t, timers w !! i = Some t /\ due t <= now w /\ kind t = ReconnectTimer /\
     fire_timer i ctor w = createConnection ctor (reschedule i t w)) \/
  (exists t, timers w !! i = Some t /\ due t <= now w /\ kind t = HeartbeatTimer /\
     fire_timer i ctor w = heartbeat (reschedule i t w)).
Proof.
  unfold fire_timer. mrun.
  destruct (timers w !! i) as [t|] eqn:Ht; [|by left]. cbn.
  case_bool_decide as Hd; cbn; [|by left].
  destruct (kind t) eqn:Hk.
  - right; left. by exists t.
  - right; right. by exists t.
Qed.

Lemma step_counter_in_range JSON_parse a w :
  counter_in_range w -> counter_in_range (step JSON_parse a w).1.
Proof.
  intros H. destruct a; cbn [step].
  - rewrite connect_unfold. apply createConnection_counter.
    unfold counter_in_range, maxReconnectAttempts. cbn. lia.
  - rewrite disconnect_run. unfold counter_in_range, update_socket in *. cbn.
    by split_matches.
  - destruct (deliver_open_cases k w) as [->|[(s & _ & _ & _ & ->)|(s & _ & _ & _ & ->)]];
      try done; unfold counter_in_range, maxReconnectAttempts; cbn; lia.
  - destruct (deliver_message_cases JSON_parse k d w) as [->|(s & _ & _ & _ & ->)]; [done|].
    by destruct (ws_onmessage_effect JSON_parse d w) as [_ (l & -> & _)].
  - by destruct (deliver_error_cases k w) as [->| ->].
  - destruct (deliver_close_cases k w) as [->|[(s & _ & _ & _ & ->)|(s & _ & _ & _ & ->)]];
      try done; by apply attemptReconnect_counter.
  - destruct (fire_timer_cases i ctor w) as [->|[(t & _ & _ & _ & ->)|(t & _ & _ & _ & ->)]];
      try done.
    + apply createConnection_counter. unfold reschedule. by destruct (period t).
    + destruct (heartbeat_cases (reschedule i t w)) as [[_ ->]|(k & _ & _ & ->)];
        unfold reschedule; by destruct (period t).
  - done.
Qed.

Lemma step_returns JSON_parse a w : (step JSON_parse a w).2 = Ok tt.
Proof.
  destruct a; cbn [step].
  - apply connect_returns.
  - apply disconnect_returns.
  - by destruct (deliver_open_cases k w) as [->|[(s & _ & _ & _ & ->)|(s & _ & _ & _ & ->)]].
  - destruct (deliver_message_cases JSON_parse k d w) as [->|(s & _ & _ & _ & ->)]; [done|].
    apply ws_onmessage_effect.
  - by destruct (deliver_error_cases k w) as [->| ->].
  - destruct (deliver_close_cases k w) as [->|[(s & _ & _ & _ & ->)|(s & _ & _ & _ & ->)]];
      try done; apply attemptReconnect_returns.
  - destruct (fire_timer_cases i ctor w) as [->|[(t & _ & _ & _ & ->)|(t & _ & _ & _ & ->)]];
      try done.
    + apply createConnection_returns.
    + by destruct (heartbeat_cases (reschedule i t w)) as [[_ ->]|(k & _ & _ & ->)].
  - done.
Qed.

(** X1. No call of the channel and no event handler ever throws: every run
    of [connect] and [disconnect] calls and of socket, timer and clock events
    returns normally. *)
Theorem channel_never_throws JSON_parse (l : list Action) (w : World) :
  outcome (run JSON_parse l) w = Ok tt.
Proof.
  unfold outcome. revert w. induction l as [|a l IH]; intros w; [done|].
  rewrite run_cons. pose proof (step_returns JSON_parse a w) as H.
  destruct (step JSON_parse a w) as [w' r]. cbn in H. subst r. apply IH.
Qed.

(** X2. The reconnect counter stays between zero and the ceiling of 10 in
    every run that starts within these bounds. *)
Theorem reconnectAttempts_bounded JSON_parse (l : list Action) (w : World) :
  0 <= reconnectAttempts (notificationSocket w) <= maxReconnectAttempts ->
  0 <= reconnectAttempts (notificationSocket (exec (run JSON_parse l) w))
    <= maxReconnectAttempts.
Proof.
  intros H. apply (run_preserves JSON_parse counter_in_range); [|done].
  apply step_counter_in_range.
Qed.
(** ** The heartbeat *)

Lemma heartbeat_count_app (l1 l2 : list Timer) :
  length (List.filter is_heartbeat (l1 ++ l2)) =
  (length (List.filter is_heartbeat l1) + length (List.filter is_heartbeat l2))%nat.
Proof. by rewrite List.filter_app, length_app. Qed.

Lemma heartbeat_count_delete (l : list Timer) i t :
  l !! i = Some t -> is_heartbeat t = false ->
  length (List.filter is_heartbeat (delete i l)) = length (List.filter is_heartbeat l).
Proof.
  intros Hi Ht. rewrite delete_take_drop.
  rewrite <- (take_drop_middle l i t Hi) at 3.
  rewrite !heartbeat_count_app. cbn. by rewrite Ht.
Qed.

Lemma heartbeat_count_insert (l : list Timer) i t t' :
  l !! i = Some t -> is_heartbeat t' = is_heartbeat t ->
  length (List.filter is_heartbeat (<[i := t']> l)) = length (List.filter is_heartbeat l).
Proof.
  intros Hi Ht. rewrite insert_take_drop by (by eapply lookup_lt_Some).
  rewrite <- (take_drop_middle l i t Hi) at 3.
  rewrite !heartbeat_count_app. cbn. rewrite Ht. by destruct (is_heartbeat t).
Qed.

Lemma keeps_heartbeats_same_timers w w' :
  intervals_repeat w -> timers w' = timers w -> keeps_heartbeats w w'.
Proof. unfold keeps_heartbeats, intervals_repeat, heartbeat_timers. by intros ? ->. Qed.

Lemma keeps_heartbeats_trans w1 w2 w3 :
  keeps_heartbeats w1 w2 -> keeps_heartbeats w2 w3 -> keeps_heartbeats w1 w3.
Proof. intros [? ?] [? ?]. split; [done|lia]. Qed.

Lemma keeps_heartbeats_snoc w w' t :
  intervals_repeat w -> timers w' = timers w ++ [t] ->
  (kind t = HeartbeatTimer -> is_Some (period t)) ->
  keeps_heartbeats w w'.
Proof.
  unfold keeps_heartbeats, intervals_repeat, heartbeat_timers. intros Hw -> Ht. split.
  - apply Forall_app. split; [done|]. by apply Forall_singleton.
  - rewrite heartbeat_count_app. lia.
Qed.

Lemma attemptReconnect_heartbeats w :
  intervals_repeat w -> keeps_heartbeats w (attemptReconnect w).1.
Proof.
  intros H. destruct (attemptReconnect_cases w) as [[_ ->]|[_ ->]].
  - eapply keeps_heartbeats_snoc; [done|reflexivity|done].
  - by apply keeps_heartbeats_same_timers.
Qed.

Lemma createConnection_heartbeats ctor w :
  intervals_repeat w -> keeps_heartbeats w (createConnection ctor w).1.
Proof.
  intros H.
  destruct (createConnection_cases ctor w) as [[_ ->]|[(_ & _ & ->)|(_ & _ & ->)]].
  - by apply keeps_heartbeats_same_timers.
  - by apply keeps_heartbeats_same_timers.
  - eapply keeps_heartbeats_trans; [|apply attemptReconnect_heartbeats; done].
    by apply keeps_heartbeats_same_timers.
Qed.

Lemma reschedule_heartbeats i t w :
  intervals_repeat w -> timers w !! i = Some t -> keeps_heartbeats w (reschedule i t w).
Proof.
  unfold keeps_heartbeats, intervals_repeat, heartbeat_timers, reschedule.
  intros Hw Hi.
  assert (kind t = HeartbeatTimer -> is_Some (period t)) as Ht.
  { by eapply (Forall_lookup_1 _ _ _ _ Hw Hi). }
  destruct (period t) as [p|] eqn:Hp; cbn.
  - split.
    + apply Forall_insert; [done|]. cbn. by intros _.
    + erewrite heartbeat_count_insert; [done|done|]. by unfold is_heartbeat.
  - assert (is_heartbeat t = false) as Hk.
    { unfold is_heartbeat. destruct (kind t); [done|]. by destruct Ht. }
    split.
    + rewrite delete_take_drop. apply Forall_app. split.
      * by apply Forall_take.
      * by apply Forall_drop.
    + by erewrite heartbeat_count_delete.
Qed.

Lemma step_heartbeats JSON_parse a w :
  intervals_repeat w -> keeps_heartbeats w (step JSON_parse a w).1.
Proof.
  intros H. destruct a; cbn [step].
  - rewrite connect_unfold.
    eapply keeps_heartbeats_trans; [|apply createConnection_heartbeats; done].
    by apply keeps_heartbeats_same_timers.
  - rewrite disconnect_run. apply keeps_heartbeats_same_timers; [done|].
    unfold update_socket. cbn. by split_matches.
  - destruct (deliver_open_cases k w) as [->|[(s & _ & _ & _ & ->)|(s & _ & _ & _ & ->)]].
    + by apply keeps_heartbeats_same_timers.
    + by apply keeps_heartbeats_same_timers.
    + eapply keeps_heartbeats_snoc; [done|reflexivity|]. cbn. by intros _.
  - destruct (deliver_message_cases JSON_parse k d w) as [->|(s & _ & _ & _ & ->)].
    + by apply keeps_heartbeats_same_timers.
    + destruct (ws_onmessage_effect JSON_parse d w) as [_ (l & -> & _)].
      by apply keeps_heartbeats_same_timers.
  - destruct (deliver_error_cases k w) as [->| ->]; by apply keeps_heartbeats_same_timers.
  - destruct (deliver_close_cases k w) as [->|[(s & _ & _ & _ & ->)|(s & _ & _ & _ & ->)]].
    + by apply keeps_heartbeats_same_timers.
    + by apply keeps_heartbeats_same_timers.
    + eapply keeps_heartbeats_trans; [|apply attemptReconnect_heartbeats; done].
      by apply keeps_heartbeats_same_timers.
  - destruct (fire_timer_cases i ctor w) as [->|[(t & Ht & _ & _ & ->)|(t & Ht & _ & _ & ->)]].
    + by apply keeps_heartbeats_same_timers.
    + pose proof (reschedule_heartbeats i t w H Ht) as Hr.
      eapply keeps_heartbeats_trans; [exact Hr|].
      apply createConnection_heartbeats. apply Hr.
    + pose proof (reschedule_heartbeats i t w H Ht) as Hr.
      eapply keeps_heartbeats_trans; [exact Hr|].
      destruct (heartbeat_cases (reschedule i t w)) as [[_ ->]|(k & _ & _ & ->)];
        apply keeps_heartbeats_same_timers; try done; apply Hr.
  - by apply keeps_heartbeats_same_timers.
Qed.

(** X3. No call and no event ever cancels a heartbeat timer: along every
    run the number of heartbeat timers does not go down, [disconnect] leaves
    them all in place, and each open event of a connecting socket that
    carries the handler adds one. *)
Theorem heartbeat_timers_never_cancelled JSON_parse (l : list Action) (w : World) :
  intervals_repeat w ->
  (heartbeat_timers w <= heartbeat_timers (exec (run JSON_parse l) w))%nat /\
  timers (exec disconnect w) = timers w /\
  (forall k s, heap w !! k = Some s -> readyState s = CONNECTING -> onopen s = true ->
     heartbeat_timers (exec (deliver_open k) w) = S (heartbeat_timers w)).
Proof.
  intros H. split; [|split].
  - unfold exec.
    assert (forall l w, intervals_repeat w -> keeps_heartbeats w (run JSON_parse l w).1) as Hrun.
    { clear. intros l. induction l as [|a l IH]; intros w H.
      - by apply keeps_heartbeats_same_timers.
      - rewrite run_cons. pose proof (step_heartbeats JSON_parse a w H) as Hs.
        pose proof (step_returns JSON_parse a w) as Hr.
        destruct (step JSON_parse a w) as [w' r]. cbn in *. subst r.
        eapply keeps_heartbeats_trans; [exact Hs|]. apply IH. apply Hs. }
    apply Hrun. done.
  - unfold exec. rewrite disconnect_run. unfold update_socket. cbn. by split_matches.
  - intros k s Hs Hr Ho. unfold exec. rewrite (deliver_open_run k s w Hs Hr Ho).
    unfold heartbeat_timers. cbn -[List.filter app].
    rewrite heartbeat_count_app. cbn. lia.
Qed.

Lemma heartbeat_timers_never_cancelled_witness :
  let w := alice_session Json.parse in
  let l := [Disconnect; Closed 0; Elapsed 60000; TimerFired 0 CtorOk; TimerFired 1 CtorOk] in
  intervals_repeat w /\
  (heartbeat_timers w <= heartbeat_timers (exec (run Json.parse l) w))%nat /\
  timers (exec disconnect w) = timers w /\
  (forall k s, heap w !! k = Some s -> readyState s = CONNECTING -> onopen s = true ->
     heartbeat_timers (exec (deliver_open k) w) = S (heartbeat_timers w)).
Proof.
  cbn zeta.
  assert (intervals_repeat (alice_session Json.parse)) as H.
  { vm_compute. repeat constructor. by eexists. }
  split; [exact H|].
  apply (heartbeat_timers_never_cancelled Json.parse
           [Disconnect; Closed 0; Elapsed 60000; TimerFired 0 CtorOk; TimerFired 1 CtorOk]
           (alice_session Json.parse)); exact H.
Defined.

Lemma reconnectAttempts_bounded_witness :
  let w := alice_session Json.parse in
  let l := [Closed 0; Elapsed 5000; TimerFired 1 CtorThrows; Connect 8 CtorThrows] in
  0 <= reconnectAttempts (notificationSocket w) <= maxReconnectAttempts /\
  0 <= reconnectAttempts (notificationSocket (exec (run Json.parse l) w))
    <= maxReconnectAttempts.
Proof.
  cbn zeta. assert (0 <= reconnectAttempts (notificationSocket (alice_session Json.parse))
                    <= maxReconnectAttempts) as H by (vm_compute; split; discriminate).
  split; [exact H|].
  apply (reconnectAttempts_bounded Json.parse
           [Closed 0; Elapsed 5000; TimerFired 1 CtorThrows; Connect 8 CtorThrows]
           (alice_session Json.parse)); exact H.
Defined.
Lemma adds_no_send_refl w : adds_no_send w w.
Proof. exists []. by rewrite app_nil_r. Qed.

Lemma adds_no_send_trans w1 w2 w3 :
  adds_no_send w1 w2 -> adds_no_send w2 w3 -> adds_no_send w1 w3.
Proof.
  intros (l1 & H1 & F1) (l2 & H2 & F2). exists (l1 ++ l2).
  split; [by rewrite H2, H1, app_assoc | by apply Forall_app].
Qed.

Lemma adds_no_send_emit e w w' :
  is_send e = false -> trace w' = trace w ++ [e] -> adds_no_send w w'.
Proof. intros He Ht. exists [e]. split; [done|]. by apply Forall_singleton. Qed.

Lemma adds_no_send_same w w' : trace w' = trace w -> adds_no_send w w'.
Proof. intros Ht. exists []. by rewrite app_nil_r. Qed.

Lemma attemptReconnect_no_send w : adds_no_send w (attemptReconnect w).1.
Proof.
  destruct (attemptReconnect_cases w) as [[_ ->]|[_ ->]].
  - eexists [_; _]. split; [cbn; by rewrite <- app_assoc|]. by repeat constructor.
  - (eapply adds_no_send_emit; [|cbn; reflexivity]; reflexivity).
Qed.

Lemma createConnection_no_send ctor w : adds_no_send w (createConnection ctor w).1.
Proof.
  destruct (createConnection_cases ctor w) as [[_ ->]|[(_ & _ & ->)|(_ & _ & ->)]].
  - apply adds_no_send_refl.
  - (eapply adds_no_send_emit; [|cbn; reflexivity]; reflexivity).
  - eapply adds_no_send_trans; [|apply attemptReconnect_no_send].
    (eapply adds_no_send_emit; [|cbn; reflexivity]; reflexivity).
Qed.

Lemma update_socket_trace k f w : trace (update_socket k f w) = trace w.
Proof. unfold update_socket. by destruct (heap w !! k). Qed.

Lemma reschedule_trace i t w : trace (reschedule i t w) = trace w.
Proof. unfold reschedule. by destruct (period t). Qed.

Lemma reschedule_held i t w :
  ws (notificationSocket (reschedule i t w)) = ws (notificationSocket w) /\
  held_is_open (reschedule i t w) = held_is_open w.
Proof. unfold reschedule, held_is_open, held. by destruct (period t). Qed.

(** X4. The only thing the page ever sends on a socket is the text [ping],
    and only on the socket it holds, while that socket is open: whatever a
    step adds to the trace, a send in it is such a ping. *)
Theorem only_pings_on_the_open_held_socket JSON_parse (a : Action) (w : World) :
  exists l, trace (exec (step JSON_parse a) w) = trace w ++ l /\
    forall k payload, SocketSend k payload ∈ l ->
      payload = "ping" /\ ws (notificationSocket w) = Some k /\ held_is_open w = true.
Proof.
  assert (forall w', adds_no_send w w' ->
            exists l, trace w' = trace w ++ l /\
              forall k payload, SocketSend k payload ∈ l ->
                payload = "ping" /\ ws (notificationSocket w) = Some k /\
                held_is_open w = true) as Hquiet.
  { intros w' (l & Hl & Hf). exists l. split; [done|]. intros k p Hin.
    rewrite Forall_forall in Hf. by specialize (Hf _ Hin). }
  unfold exec. destruct a; cbn [step].
  - apply Hquiet. rewrite connect_unfold.
    eapply adds_no_send_trans; [|apply createConnection_no_send].
    (eapply adds_no_send_emit; [|cbn; reflexivity]; reflexivity).
  - apply Hquiet. rewrite disconnect_run.
    destruct (ws (notificationSocket w)) as [k|]; cbn [fst].
    + eexists [_; _]. cbn. rewrite update_socket_trace. cbn. rewrite <- app_assoc.
      split; [done|]. by repeat constructor.
    + (eapply adds_no_send_emit; [|cbn; reflexivity]; reflexivity).
  - apply Hquiet.
    destruct (deliver_open_cases k w) as [->|[(s & _ & _ & _ & ->)|(s & _ & _ & _ & ->)]].
    + apply adds_no_send_refl.
    + by apply adds_no_send_same.
    + eexists [_; _]. cbn. rewrite <- app_assoc. split; [done|]. by repeat constructor.
  - apply Hquiet.
    destruct (deliver_message_cases JSON_parse k d w) as [->|(s & _ & _ & _ & ->)].
    + apply adds_no_send_refl.
    + destruct (ws_onmessage_effect JSON_parse d w) as [_ (l & -> & Hl)].
      exists l. split; [done|].
      destruct Hl as [->|[[text ->]| ->]]; by repeat constructor.
  - apply Hquiet.
    destruct (deliver_error_cases k w) as [->| ->];
      [apply adds_no_send_refl | (eapply adds_no_send_emit; [|cbn; reflexivity]; reflexivity)].
  - apply Hquiet.
    destruct (deliver_close_cases k w) as [->|[(s & _ & _ & _ & ->)|(s & _ & _ & _ & ->)]].
    + apply adds_no_send_refl.
    + by apply adds_no_send_same.
    + eapply adds_no_send_trans; [|apply attemptReconnect_no_send].
      (eapply adds_no_send_emit; [|cbn; reflexivity]; reflexivity).
  - destruct (fire_timer_cases i ctor w) as [->|[(t & _ & _ & _ & ->)|(t & _ & _ & _ & ->)]].
    + apply Hquiet, adds_no_send_refl.
    + apply Hquiet. eapply adds_no_send_trans; [|apply createConnection_no_send].
      apply adds_no_send_same, reschedule_trace.
    + destruct (reschedule_held i t w) as [Hws Hopen].
      destruct (heartbeat_cases (reschedule i t w)) as [[_ ->]|(k & Ho & Hk & ->)].
      * apply Hquiet, adds_no_send_same, reschedule_trace.
      * exists [SocketSend k "ping"]. cbn. rewrite reschedule_trace. split; [done|].
        intros k' p Hin. apply list_elem_of_singleton in Hin. injection Hin as -> ->.
        rewrite <- Hws, <- Hopen. done.
  - apply Hquiet. by apply adds_no_send_same.
Qed.
(** ** The addresses of the sockets *)

Lemma wsUrl_socket_url w uid :
  userId (notificationSocket w) = Some uid ->
  wsUrl w = socket_url (location_protocol w) (location_host w) uid.
Proof. intros H. unfold wsUrl, socket_url. by rewrite H. Qed.

Lemma attemptReconnect_names w :
  sockets_name_a_user w -> is_Some (userId (notificationSocket w)) ->
  sockets_name_a_user (attemptReconnect w).1.
Proof.
  intros [H1 H2] [uid Hu].
  destruct (attemptReconnect_cases w) as [[_ ->]|[_ ->]]; (split; [cbn; congruence | done]).
Qed.

Lemma createConnection_names ctor w :
  sockets_name_a_user w -> is_Some (userId (notificationSocket w)) ->
  sockets_name_a_user (createConnection ctor w).1.
Proof.
  intros [H1 H2] [uid Hu].
  destruct (createConnection_cases ctor w) as [[_ ->]|[(_ & _ & ->)|(_ & _ & ->)]].
  - done.
  - split; [cbn; congruence|]. cbn. apply Forall_app. split; [done|].
    apply Forall_singleton. exists uid. cbn. by apply wsUrl_socket_url.
  - apply attemptReconnect_names; [|by exists uid]. split; [cbn; congruence | done].
Qed.

Lemma names_insert (P : WebSocketObj -> Prop) (h : list WebSocketObj) k s (f : WebSocketObj -> WebSocketObj) :
  Forall P h -> h !! k = Some s -> (P s -> P (f s)) -> Forall P (<[k := f s]> h).
Proof.
  intros Hh Hk Hf. apply Forall_insert; [done|]. apply Hf.
  by eapply (Forall_lookup_1 _ _ _ _ Hh Hk).
Qed.

Lemma names_started w k s :
  sockets_name_a_user w -> heap w !! k = Some s -> is_Some (userId (notificationSocket w)).
Proof.
  intros [H1 _] Hk. destruct (userId (notificationSocket w)) as [uid|] eqn:E; [by eexists|].
  destruct H1 as [Hh _]; [done|]. by rewrite Hh in Hk.
Qed.

Lemma names_started_timer w i t :
  sockets_name_a_user w -> timers w !! i = Some t -> is_Some (userId (notificationSocket w)).
Proof.
  intros [H1 _] Hk. destruct (userId (notificationSocket w)) as [uid|] eqn:E; [by eexists|].
  destruct H1 as [_ Hh]; [done|]. by rewrite Hh in Hk.
Qed.

Lemma step_names JSON_parse a w :
  sockets_name_a_user w -> sockets_name_a_user (step JSON_parse a w).1.
Proof.
  intros H. destruct a; cbn [step].
  - rewrite connect_unfold. apply createConnection_names; [|by eexists].
    destruct H as [_ H2]. split; [done|]. done.
  - rewrite disconnect_run. destruct (ws (notificationSocket w)) as [k|]; cbn [fst]; [|done].
    unfold update_socket. cbn. destruct (heap w !! k) as [s|] eqn:Hs; [|done].
    destruct H as [H1 H2]. split.
    + cbn. intros Hu. destruct (H1 Hu) as [Hh _]. by rewrite Hh in Hs.
    + cbn. eapply names_insert; [done|done|]. unfold begin_close. by destruct (readyState s).
  - destruct (deliver_open_cases k w) as [->|[(s & Hs & _ & _ & ->)|(s & Hs & _ & _ & ->)]];
      [done| |].
    all: destruct (names_started w k s H Hs) as [uid Hu].
    all: destruct H as [H1 H2]; split; [cbn; congruence|].
    all: cbn; by eapply names_insert.
  - destruct (deliver_message_cases JSON_parse k d w) as [->|(s & _ & _ & _ & ->)]; [done|].
    by destruct (ws_onmessage_effect JSON_parse d w) as [_ (l & -> & _)].
  - by destruct (deliver_error_cases k w) as [->| ->].
  - destruct (deliver_close_cases k w) as [->|[(s & Hs & _ & _ & ->)|(s & Hs & _ & _ & ->)]];
      [done| |].
    all: destruct (names_started w k s H Hs) as [uid Hu].
    all: destruct H as [H1 H2].
    + split; [cbn; congruence|]. cbn. by eapply names_insert.
    + apply attemptReconnect_names; [|by exists uid].
      split; [cbn; congruence|]. cbn. by eapply names_insert.
  - destruct (fire_timer_cases i ctor w) as [->|[(t & Ht & _ & _ & ->)|(t & Ht & _ & _ & ->)]];
      [done| |].
    all: destruct (names_started_timer w i t H Ht) as [uid Hu].
    all: assert (sockets_name_a_user (reschedule i t w)) as Hr
      by (destruct H as [H1 H2]; unfold reschedule;
          destruct (period t); (split; [cbn; congruence | done])).
    + apply createConnection_names; [done|].
      exists uid. unfold reschedule. by destruct (period t).
    + by destruct (heartbeat_cases (reschedule i t w)) as [[_ ->]|(k & _ & _ & ->)].
  - done.
Qed.

Lemma step_location JSON_parse a w :
  location_protocol (step JSON_parse a w).1 = location_protocol w /\
  location_host (step JSON_parse a w).1 = location_host w.
Proof.
  assert (forall w0, location_protocol (attemptReconnect w0).1 = location_protocol w0 /\
                     location_host (attemptReconnect w0).1 = location_host w0) as Ha.
  { intros w0. by destruct (attemptReconnect_cases w0) as [[_ ->]|[_ ->]]. }
  assert (forall ctor w0, location_protocol (createConnection ctor w0).1 = location_protocol w0 /\
                          location_host (createConnection ctor w0).1 = location_host w0) as Hc.
  { intros ctor w0.
    destruct (createConnection_cases ctor w0) as [[_ ->]|[(_ & _ & ->)|(_ & _ & ->)]];
      [done|done|]. by rewrite (proj1 (Ha _)), (proj2 (Ha _)). }
  destruct a; cbn [step].
  - rewrite connect_unfold. by rewrite (proj1 (Hc _ _)), (proj2 (Hc _ _)).
  - rewrite disconnect_run. unfold update_socket. cbn. by split_matches.
  - by destruct (deliver_open_cases k w) as [->|[(s & _ & _ & _ & ->)|(s & _ & _ & _ & ->)]].
  - destruct (deliver_message_cases JSON_parse k d w) as [->|(s & _ & _ & _ & ->)]; [done|].
    by destruct (ws_onmessage_effect JSON_parse d w) as [_ (l & -> & _)].
  - by destruct (deliver_error_cases k w) as [->| ->].
  - destruct (deliver_close_cases k w) as [->|[(s & _ & _ & _ & ->)|(s & _ & _ & _ & ->)]];
      [done|done|]. by rewrite (proj1 (Ha _)), (proj2 (Ha _)).
  - destruct (fire_timer_cases i ctor w) as [->|[(t & _ & _ & _ & ->)|(t & _ & _ & _ & ->)]];
      [done| |].
    + rewrite (proj1 (Hc _ _)), (proj2 (Hc _ _)). unfold reschedule. by destruct (period t).
    + destruct (heartbeat_cases (reschedule i t w)) as [[_ ->]|(k & _ & _ & ->)];
        unfold reschedule; by destruct (period t).
  - done.
Qed.

(** X5. Whatever calls and events follow the load of a page, every socket
    the page creates is addressed to
    [<ws|wss>://<host of the page>/api/tickets/ws/<id>] for an integer [id]:
    the secure scheme exactly when the page itself was loaded over
    [https:], and never the text [null] in place of the id. *)
Theorem sockets_are_addressed_to_a_user JSON_parse storage protocol host href t
    (l : list Action) :
  Forall (fun s => exists uid, url s = socket_url protocol host uid)
    (heap (exec (run JSON_parse l) (fresh_page storage protocol host href t))).
Proof.
  unfold exec.
  assert (forall l w, sockets_name_a_user w ->
            sockets_name_a_user (run JSON_parse l w).1 /\
            location_protocol (run JSON_parse l w).1 = location_protocol w /\
            location_host (run JSON_parse l w).1 = location_host w) as Hrun.
  { clear. intros l. induction l as [|a l IH]; intros w H; [done|].
    rewrite run_cons. pose proof (step_names JSON_parse a w H) as Hn.
    pose proof (step_location JSON_parse a w) as [Hp Hh].
    pose proof (step_returns JSON_parse a w) as Hr.
    destruct (step JSON_parse a w) as [w' r]. cbn in *. subst r.
    destruct (IH w' Hn) as (? & ? & ?). split; [done|]. split; congruence. }
  destruct (Hrun l (fresh_page storage protocol host href t)) as ([_ H] & Hp & Hh).
  { split; [done|]. cbn. constructor. }
  by rewrite Hp, Hh in H.
Qed.

(** X6. On one page, the channels of two different users have different
    addresses: the template of [createConnection] never builds the same
    address from two different ids. *)
Theorem wsUrl_distinct (w1 w2 : World) (a b : Z) :
  location_protocol w1 = location_protocol w2 ->
  location_host w1 = location_host w2 ->
  userId (notificationSocket w1) = Some a ->
  userId (notificationSocket w2) = Some b ->
  a <> b ->
  wsUrl w1 <> wsUrl w2.
Proof.
  intros Hp Hh Ha Hb Hab H. apply Hab.
  rewrite (wsUrl_socket_url w1 a Ha), (wsUrl_socket_url w2 b Hb), Hp, Hh in H.
  unfold socket_url in H.
  do 4 apply (inj (String.app _)) in H.
  by apply (inj pretty) in H.
Qed.

Lemma wsUrl_distinct_witness :
  let w1 := exec (connect 7 CtorOk) login_page in
  let w2 := exec (connect 8 CtorOk) login_page in
  location_protocol w1 = location_protocol w2 /\
  location_host w1 = location_host w2 /\
  userId (notificationSocket w1) = Some 7 /\
  userId (notificationSocket w2) = Some 8 /\
  7 <> 8 /\
  wsUrl w1 <> wsUrl w2.
Proof.
  cbn zeta. do 4 (split; [reflexivity|]). split; [lia|].
  apply (wsUrl_distinct (exec (connect 7 CtorOk) login_page)
           (exec (connect 8 CtorOk) login_page) 7 8); first [reflexivity | lia].
Defined.

(** ** Calls of the channel in particular states *)

(** X7. [connect] while the held socket is open does not reconnect: it
    stores the new id and resets the counter, and that is all; the held
    socket, still addressed to the user it was created for, stays in
    place. *)
Theorem connect_while_open (uid : Z) (ctor : CtorOutcome) (w : World) :
  held_is_open w = true ->
  let w' := exec (connect uid ctor) w in
  outcome (connect uid ctor) w = Ok tt /\
  userId (notificationSocket w') = Some uid /\
  reconnectAttempts (notificationSocket w') = 0 /\
  ws (notificationSocket w') = ws (notificationSocket w) /\
  heap w' = heap w /\
  timers w' = timers w /\
  trace w' = trace w ++ [CallConnect uid].
Proof.
  intros H. cbn zeta. unfold exec, outcome. rewrite connect_unfold.
  rewrite createConnection_skip; [done|].
  unfold held_is_open, held in *. done.
Qed.

Lemma connect_while_open_witness :
  let w := alice_session Json.parse in
  let w' := exec (connect 8 CtorOk) w in
  held_is_open w = true /\
  outcome (connect 8 CtorOk) w = Ok tt /\
  userId (notificationSocket w') = Some 8 /\
  reconnectAttempts (notificationSocket w') = 0 /\
  ws (notificationSocket w') = ws (notificationSocket w) /\
  heap w' = heap w /\
  timers w' = timers w /\
  trace w' = trace w ++ [CallConnect 8].
Proof.
  cbn zeta. split; [reflexivity|].
  apply (connect_while_open 8 CtorOk (alice_session Json.parse)). reflexivity.
Defined.

(** X8. When [new WebSocket] throws, [connect] still returns normally: no
    socket is created and the held reference is left alone, the failure is
    logged, and the attempt is counted and retried after the retry interval
    like a dropped connection. *)
Theorem connect_constructor_throws (uid : Z) (w : World) :
  held_is_open w = false ->
  let w' := exec (connect uid CtorThrows) w in
  outcome (connect uid CtorThrows) w = Ok tt /\
  heap w' = heap w /\
  ws (notificationSocket w') = ws (notificationSocket w) /\
  userId (notificationSocket w') = Some uid /\
  reconnectAttempts (notificationSocket w') = 1 /\
  timers w' = timers w ++ [mkTimer ReconnectTimer (now w + reconnectInterval) None] /\
  toasts w' = toasts w /\
  Console console_error "❌ Ошибка создания WebSocket соединения:" ∈ trace w'.
Proof.
  intros H. cbn zeta. unfold exec, outcome. rewrite connect_unfold.
  rewrite createConnection_throws by (unfold held_is_open, held in *; done).
  rewrite attemptReconnect_below by (cbn; done). cbn.
  repeat split; try done.
  - by toasts_simpl.
  - rewrite !elem_of_app, !list_elem_of_singleton. tauto.
Qed.

Lemma connect_constructor_throws_witness :
  let w := login_page in
  let w' := exec (connect 7 CtorThrows) w in
  held_is_open w = false /\
  outcome (connect 7 CtorThrows) w = Ok tt /\
  heap w' = heap w /\
  ws (notificationSocket w') = ws (notificationSocket w) /\
  userId (notificationSocket w') = Some 7 /\
  reconnectAttempts (notificationSocket w') = 1 /\
  timers w' = timers w ++ [mkTimer ReconnectTimer (now w + reconnectInterval) None] /\
  toasts w' = toasts w /\
  Console console_error "❌ Ошибка создания WebSocket соединения:" ∈ trace w'.
Proof.
  cbn zeta. split; [reflexivity|].
  apply (connect_constructor_throws 7 login_page). reflexivity.
Defined.

(** X9. [disconnect] is safe to repeat: a second call, or a call when no
    socket is held, asks no socket to close and changes neither the channel
    state, nor the sockets, nor the timers. *)
Theorem disconnect_when_disconnected (w : World) :
  let w1 := exec disconnect w in
  let w2 := exec disconnect w1 in
  outcome disconnect w = Ok tt /\
  ws (notificationSocket w1) = None /\
  outcome disconnect w1 = Ok tt /\
  notificationSocket w2 = notificationSocket w1 /\
  heap w2 = heap w1 /\
  timers w2 = timers w1 /\
  trace w2 = trace w1 ++ [CallDisconnect].
Proof.
  cbn zeta. unfold exec, outcome.
  assert (ws (notificationSocket (disconnect w).1) = None) as Hws.
  { rewrite disconnect_run. by destruct (ws (notificationSocket w)) eqn:E. }
  rewrite (disconnect_run (disconnect w).1), Hws.
  repeat split; try done. by rewrite disconnect_run.
Qed.
(** X10. A reconnection that succeeds restores the channel: after the close
    of the held socket, the retry interval and a new socket that opens, the
    new socket is held and open, it is addressed like the old one, and the
    counter is back at zero, so that a later drop has the full number of
    attempts again; one more heartbeat timer is running. *)
Theorem reconnect_restores_the_channel JSON_parse (w : World) (k : nat) (s : WebSocketObj) :
  ws (notificationSocket w) = Some k ->
  heap w !! k = Some s ->
  readyState s <> CLOSED ->
  onclose s = true ->
  reconnectAttempts (notificationSocket w) < maxReconnectAttempts ->
  let n := length (heap w) in
  let w' := exec (run JSON_parse
                    [Closed k; Elapsed reconnectInterval;
                     TimerFired (length (timers w)) CtorOk; Opened n]) w in
  ws (notificationSocket w') = Some n /\
  held_is_open w' = true /\
  heap w' !! n = Some (set_readyState OPEN (connecting_socket (wsUrl w) (now w + reconnectInterval))) /\
  heap w' !! k = Some (set_readyState CLOSED s) /\
  reconnectAttempts (notificationSocket w') = 0 /\
  userId (notificationSocket w') = userId (notificationSocket w) /\
  timers w' =
    timers w ++ [mkTimer HeartbeatTimer (now w + reconnectInterval + 30000) (Some 30000)].
Proof.
  intros Hws Hs Hstate Hclose Hbelow. cbn zeta. unfold exec.
  assert (k < length (heap w))%nat as Hk by (by eapply lookup_lt_Some).
  rewrite run_cons. cbn [step].
  erewrite deliver_close_run by done.
  rewrite attemptReconnect_below by exact Hbelow. cbn beta iota.
  rewrite run_cons. cbn [step]. rewrite elapse_run by done. cbn beta iota.
  rewrite run_cons. cbn [step].
  erewrite fire_reconnect_timer; cycle 1.
  { cbn. reflexivity. }
  { cbn. lia. }
  rewrite createConnection_new; cycle 1.
  { unfold held_is_open, held. cbn. rewrite Hws.
    rewrite list_lookup_insert_eq by done. cbn. by case_bool_decide. }
  cbn beta iota. rewrite run_cons. cbn [step].
  erewrite deliver_open_run; cycle 1.
  { cbn. apply list_lookup_middle. by rewrite length_insert. }
  { done. }
  { done. }
  cbn. rewrite !length_insert.
  rewrite <- (length_insert (heap w) k (set_readyState CLOSED s)), insert_last.
  rewrite !length_insert.
  repeat split; try done.
  - unfold held_is_open, held. cbn. rewrite list_lookup_middle by (by rewrite length_insert).
    done.
  - by rewrite list_lookup_middle by (by rewrite length_insert).
  - rewrite lookup_app_l by (by rewrite length_insert).
    by apply list_lookup_insert_eq.
Qed.

Lemma reconnect_restores_the_channel_witness :
  let w := alice_session Json.parse in
  let s := mkWebSocket "ws://localhost:3000/api/tickets/ws/7" OPEN true true true true 0 in
  let n := length (heap w) in
  let w' := exec (run Json.parse
                    [Closed 0; Elapsed reconnectInterval;
                     TimerFired (length (timers w)) CtorOk; Opened n]) w in
  ws (notificationSocket w) = Some 0%nat /\
  heap w !! 0%nat = Some s /\
  readyState s <> CLOSED /\
  onclose s = true /\
  reconnectAttempts (notificationSocket w) < maxReconnectAttempts /\
  ws (notificationSocket w') = Some n /\
  held_is_open w' = true /\
  heap w' !! n = Some (set_readyState OPEN (connecting_socket (wsUrl w) (now w + reconnectInterval))) /\
  heap w' !! 0%nat = Some (set_readyState CLOSED s) /\
  reconnectAttempts (notificationSocket w') = 0 /\
  userId (notificationSocket w') = userId (notificationSocket w) /\
  timers w' =
    timers w ++ [mkTimer HeartbeatTimer (now w + reconnectInterval + 30000) (Some 30000)].
Proof.
  cbn zeta.
  split; [reflexivity|]. split; [reflexivity|]. split; [discriminate|].
  split; [reflexivity|]. split; [reflexivity|].
  apply (reconnect_restores_the_channel Json.parse (alice_session Json.parse) 0%nat
           (mkWebSocket "ws://localhost:3000/api/tickets/ws/7" OPEN true true true true 0));
    [reflexivity | reflexivity | discriminate | reflexivity | reflexivity].
Defined.

(** ** Envelopes *)



(** X12. Any other parsed value is ignored without a trace: an object whose
    [type] is not the text [ticket_updated], an array, a text, a number or a
    boolean.  Only [null] is not ignored: reading its [type] throws. *)
Theorem other_envelopes_are_ignored (data : JSON) (w : World) :
  data <> JNull ->
  (forall fields, data = JObject fields ->
     own_property "type" fields <> Some (JString "ticket_updated")) ->
  handleMessage data w = (w, Ok tt) /\
  exists e, handleMessage JNull w = (w, Throw e).
Proof.
  intros Hnull Hty. split; [|by eexists].
  unfold handleMessage, Get, strict_eq_string. mrun.
  destruct data as [|b|r|s|items|fields]; try done; cbn.
  specialize (Hty fields eq_refl).
  destruct (own_property "type" fields) as [[|?|?|t|?|?]|]; try done.
  destruct (String.eqb_spec t "ticket_updated") as [->|]; [done|done].
Qed.

Lemma other_envelopes_are_ignored_witness :
  let data := JObject [("type", JString "user_updated"); ("ticket", JNull)] in
  data <> JNull /\
  (forall fields, data = JObject fields ->
     own_property "type" fields <> Some (JString "ticket_updated")) /\
  handleMessage data login_page = (login_page, Ok tt) /\
  exists e, handleMessage JNull login_page = (login_page, Throw e).
Proof.
  cbn zeta. split; [discriminate|].
  assert (forall fields,
            JObject [("type", JString "user_updated"); ("ticket", JNull)] = JObject fields ->
            own_property "type" fields <> Some (JString "ticket_updated")) as H.
  { intros fields [= <-]. vm_compute. discriminate. }
  split; [exact H|].
  apply (other_envelopes_are_ignored
           (JObject [("type", JString "user_updated"); ("ticket", JNull)]) login_page);
    [discriminate | exact H].
Defined.
(** ** The request gateway *)

(** X13. A rejected call whose status is not 401 costs nothing but an alert:
    the error goes on to the caller, the credential, the location, the
    session store and the channel stay as they are, and the trace gains
    exactly the alert of the failure (permission for 403, server error from
    500 on, network error without a response, and nothing at all for any
    other status). *)
Theorem rejection_other_than_401 {A} (serve : option string -> Reply A) (w : World)
    (error : AxiosError) :
  serve (bearer (localStorage w !! "access_token")) = Rejected error ->
  response_status error <> Some 401 ->
  api_call serve w = (with_trace (trace w ++ gateway_alerts error) w, Throw (EAxios error)).
Proof.
  intros Hs H401. rewrite (api_call_rejected serve w error Hs).
  unfold gateway_alerts. interceptor_cases error; try done.
  all: try (destruct (Z.eqb_spec st 401); [congruence|]).
  all: try (destruct (Z.eqb_spec st 403); try congruence).
  all: try (destruct (Z.leb_spec 500 st); try lia).
  all: try done.
  all: by rewrite with_trace_same.
Qed.

Lemma rejection_other_than_401_witness :
  let serve := serve_me (service (rejection (Some 503))) in
  let w := alice_session Json.parse in
  serve (bearer (localStorage w !! "access_token")) = Rejected (mkAxiosError (Some 503)) /\
  response_status (mkAxiosError (Some 503)) <> Some 401 /\
  api_call serve w =
    (with_trace (trace w ++ gateway_alerts (mkAxiosError (Some 503))) w,
     Throw (EAxios (mkAxiosError (Some 503)))).
Proof.
  cbn zeta. split; [reflexivity|]. split; [discriminate|].
  apply (rejection_other_than_401 (serve_me (service (rejection (Some 503))))
           (alice_session Json.parse) (mkAxiosError (Some 503)));
    [reflexivity | discriminate].
Defined.

(** X14. The [Authorization] header follows the persisted credential: the
    request after a successful login carries [Bearer] and the token that the
    login returned (when that token is not the empty text). *)
Theorem authorization_after_login b ctor credentials (w : World) resp u :
  serve_login b (bearer (localStorage w !! "access_token")) credentials = Response2xx resp ->
  serve_me b (bearer (Some (access_token resp))) = Response2xx u ->
  access_token resp <> EmptyString ->
  outcome request_interceptor (exec (login b ctor credentials) w) =
    Ok (Some ("Bearer " +:+ access_token resp)).
Proof.
  intros Hl Hm Hne.
  destruct (login_success_run b ctor credentials w resp u Hl Hm)
    as (w2 & _ & Hls & _ & _ & _ & Hrun).
  unfold exec, outcome. rewrite Hrun. cbn [fst].
  destruct (connect_untouched (id u) ctor w2) as (_ & Hl' & _).
  unfold request_interceptor, localStorage_getItem. mrun.
  rewrite Hl', Hls, lookup_insert_eq. unfold bearer, truthy.
  by destruct (String.eqb_spec (access_token resp) EmptyString).
Qed.

Lemma authorization_after_login_witness :
  let b := service (Response2xx alice) in
  serve_login b (bearer (localStorage login_page !! "access_token")) alice_credentials
    = Response2xx (mkLoginResponse "token-1" "bearer") /\
  serve_me b (bearer (Some "token-1")) = Response2xx alice /\
  "token-1" <> EmptyString /\
  outcome request_interceptor (exec (login b CtorOk alice_credentials) login_page) =
    Ok (Some ("Bearer " +:+ "token-1")).
Proof.
  cbn zeta. split; [reflexivity|]. split; [reflexivity|]. split; [discriminate|].
  apply (authorization_after_login (service (Response2xx alice)) CtorOk alice_credentials
           login_page (mkLoginResponse "token-1" "bearer") alice);
    [reflexivity | reflexivity | discriminate].
Defined.

(** X15. After a logout, after [authAPI.logout], and after the interceptor
    has handled a 401, the next request carries no [Authorization] header;
    [authAPI.logout], unlike the logout of the session store, leaves the
    store and the channel as they are. *)
Theorem no_authorization_after_logout (w : World) :
  outcome request_interceptor (exec logout w) = Ok None /\
  outcome request_interceptor (exec authAPI_logout w) = Ok None /\
  (forall A, outcome request_interceptor
               (exec (@response_interceptor_rejected A (mkAxiosError (Some 401))) w) = Ok None) /\
  store (exec authAPI_logout w) = store w /\
  notificationSocket (exec authAPI_logout w) = notificationSocket w /\
  heap (exec authAPI_logout w) = heap w /\
  location_href (exec authAPI_logout w) = "/login".
Proof.
  assert (forall w', localStorage w' !! "access_token" = None ->
            outcome request_interceptor w' = Ok None) as Hnone.
  { intros w' H. unfold outcome, request_interceptor, localStorage_getItem. mrun.
    by rewrite H. }
  repeat split.
  - apply Hnone. unfold exec. rewrite logout_run, disconnect_run. cbn.
    destruct (ws (notificationSocket w)) as [k|]; cbn.
    + unfold update_socket; cbn. destruct (heap w !! k); cbn; apply lookup_delete_eq.
    + apply lookup_delete_eq.
  - apply Hnone. unfold exec, authAPI_logout, localStorage_removeItem, set_location_href.
    mrun. apply lookup_delete_eq.
  - intros A. apply Hnone. unfold exec. rewrite interceptor_401 by done. cbn.
    apply lookup_delete_eq.
Qed.
(** ** The session store *)

Lemma login_exchange_fails_run b ctor credentials w error :
  serve_login b (bearer (localStorage w !! "access_token")) credentials = Rejected error ->
  login b ctor credentials w =
    (let w1 := (@response_interceptor_rejected LoginResponse error
                  (emit (StoreSet None None (Some true))
                     (with_store (mkAuthState (user (store w)) true (isAuthenticated (store w))) w))).1 in
     emit (login_failure_alert error)
       (emit (StoreSet None None (Some false))
          (with_store (mkAuthState (user (store w1)) false (isAuthenticated (store w1))) w1)),
     Throw (EAxios error)).
Proof.
  intros Hl.
  unfold login, authAPI_login, authAPI_getCurrentUser, set, localStorage_setItem, toast,
    login_failure_alert.
  mrun.
  erewrite api_call_rejected by (cbn; exact Hl).
  match goal with |- context [response_interceptor_rejected error ?w1] =>
    pose proof (@interceptor_throws LoginResponse error w1) as Hthrow;
    destruct (@response_interceptor_rejected LoginResponse error w1) as [w2 r] end.
  cbn in Hthrow. subst r. cbn. by case_bool_decide.
Qed.

(** X16. A login that is rejected at the token exchange throws the error on
    and writes no token; the session flags are as before, loading is over
    and the channel is untouched.  The user sees the alert of the gateway
    and then the alert of the login: for a 401 these are the session-expired
    alert and the invalid-credentials alert, and the interceptor has also
    removed any credential that was stored. *)
Theorem login_rejected b ctor credentials (w : World) error :
  serve_login b (bearer (localStorage w !! "access_token")) credentials = Rejected error ->
  let w' := exec (login b ctor credentials) w in
  outcome (login b ctor credentials) w = Throw (EAxios error) /\
  user (store w') = user (store w) /\
  isAuthenticated (store w') = isAuthenticated (store w) /\
  isLoading (store w') = false /\
  localStorage w' =
    (if bool_decide (response_status error = Some 401)
     then delete "access_token" (localStorage w) else localStorage w) /\
  toasts w' = toasts w ++ gateway_alerts error ++ [login_failure_alert error] /\
  notificationSocket w' = notificationSocket w /\
  heap w' = heap w.
Proof.
  intros Hl. cbn zeta. unfold exec, outcome.
  rewrite (login_exchange_fails_run b ctor credentials w error Hl). cbn [fst snd].
  match goal with |- context [response_interceptor_rejected error ?w0] => set (w1 := w0) end.
  destruct (interceptor_leaves_session (A:=LoginResponse) error w1) as (Hst & Hsock & Hheap & _).
  cbn zeta in Hst, Hsock, Hheap.
  pose proof (interceptor_alerts (A:=LoginResponse) error w1) as Hal.
  repeat split; try done.
  - cbn. by rewrite Hst.
  - cbn. by rewrite Hst.
  - cbn. case_bool_decide as H401.
    + by rewrite interceptor_401.
    + by destruct (interceptor_keeps_credential (A:=LoginResponse) error w1 H401) as [-> _].
  - toasts_simpl. fold (toasts (@response_interceptor_rejected LoginResponse error w1).1).
    rewrite Hal. subst w1. toasts_simpl. rewrite <- app_assoc. f_equal. f_equal.
    unfold login_failure_alert. by case_bool_decide.
Qed.

Lemma login_rejected_witness :
  let b := mkBackend (fun _ _ => Rejected (mkAxiosError (Some 401)))
                     (fun _ => Response2xx alice) in
  let w := returning_page in
  let error := mkAxiosError (Some 401) in
  let w' := exec (login b CtorOk alice_credentials) w in
  serve_login b (bearer (localStorage w !! "access_token")) alice_credentials = Rejected error /\
  outcome (login b CtorOk alice_credentials) w = Throw (EAxios error) /\
  user (store w') = user (store w) /\
  isAuthenticated (store w') = isAuthenticated (store w) /\
  isLoading (store w') = false /\
  localStorage w' =
    (if bool_decide (response_status error = Some 401)
     then delete "access_token" (localStorage w) else localStorage w) /\
  toasts w' = toasts w ++ gateway_alerts error ++ [login_failure_alert error] /\
  notificationSocket w' = notificationSocket w /\
  heap w' = heap w.
Proof.
  cbn zeta. split; [reflexivity|].
  apply (login_rejected
           (mkBackend (fun _ _ => Rejected (mkAxiosError (Some 401)))
                      (fun _ => Response2xx alice))
           CtorOk alice_credentials returning_page (mkAxiosError (Some 401))).
  reflexivity.
Defined.

(** X17. [login] returns normally exactly when the token exchange and the
    identity fetch (made with the new token) are both answered with
    success: nothing else in it can fail, and no failure is swallowed. *)
Theorem login_returns_iff b ctor credentials (w : World) :
  outcome (login b ctor credentials) w = Ok tt <->
  exists resp u,
    serve_login b (bearer (localStorage w !! "access_token")) credentials = Response2xx resp /\
    serve_me b (bearer (Some (access_token resp))) = Response2xx u.
Proof.
  unfold outcome.
  destruct (serve_login b (bearer (localStorage w !! "access_token")) credentials)
    as [resp|error] eqn:Hl.
  - destruct (serve_me b (bearer (Some (access_token resp)))) as [u|error] eqn:Hm.
    + destruct (login_success_run b ctor credentials w resp u Hl Hm) as (w2 & _ & _ & _ & _ & _ & ->).
      split; [|done]. intros _. by exists resp, u.
    + destruct (login_fetch_fails_run b ctor credentials w resp error Hl Hm)
        as (w1 & w2 & _ & _ & _ & _ & _ & _ & _ & _ & ->).
      split; [done|]. intros (resp' & u & [= <-] & Hm'). congruence.
  - rewrite (login_exchange_fails_run b ctor credentials w error Hl). cbn.
    split; [done|]. by intros (resp & u & ? & _).
Qed.
Lemma truthy_Some token :
  truthy (Some token) = true <-> token <> EmptyString.
Proof. cbn. destruct (String.eqb_spec token EmptyString); split; try done. Qed.

Lemma initializeAuth_success_run b ctor w token u :
  localStorage w !! "access_token" = Some token ->
  token <> EmptyString ->
  serve_me b (Some ("Bearer " +:+ token)) = Response2xx u ->
  initializeAuth b ctor w =
    ((connect (id u) ctor
        (emit (StoreSet (Some (Some u)) (Some true) (Some false))
           (with_store (mkAuthState (Some u) false true) w))).1,
     Ok tt).
Proof.
  intros Htok Hne Hm.
  assert (truthy (Some token) = true) as Htruthy by (by apply truthy_Some).
  assert (bearer (localStorage w !! "access_token") = Some ("Bearer " +:+ token)) as Hb.
  { rewrite Htok. unfold bearer. by rewrite Htruthy. }
  unfold initializeAuth, authAPI_getCurrentUser, localStorage_getItem, set.
  mrun. rewrite Htok, Htruthy. cbn.
  erewrite api_call_fulfilled by (rewrite Hb; exact Hm). cbn.
  match goal with |- context [connect (id u) ctor ?w2] =>
    pose proof (connect_returns (id u) ctor w2) as Hr;
    destruct (connect (id u) ctor w2) as [w3 r] end.
  cbn in Hr. by subst r.
Qed.

(** X18. [initializeAuth] with a persisted credential that the service
    accepts ends authenticated with the fetched identity and asks the
    channel to connect with its id; the credential stays, and, unlike a
    login, no alert is shown. *)
Theorem initializeAuth_success b ctor (w : World) token u :
  localStorage w !! "access_token" = Some token ->
  token <> EmptyString ->
  serve_me b (Some ("Bearer " +:+ token)) = Response2xx u ->
  let w' := exec (initializeAuth b ctor) w in
  outcome (initializeAuth b ctor) w = Ok tt /\
  store w' = mkAuthState (Some u) false true /\
  localStorage w' = localStorage w /\
  CallConnect (id u) ∈ trace w' /\
  userId (notificationSocket w') = Some (id u) /\
  toasts w' = toasts w.
Proof.
  intros Htok Hne Hm. cbn zeta. unfold exec, outcome.
  rewrite (initializeAuth_success_run b ctor w token u Htok Hne Hm). cbn [fst snd].
  match goal with |- context [connect (id u) ctor ?w0] => set (w2 := w0) end.
  destruct (connect_untouched (id u) ctor w2) as (Hs & Hl' & _ & Ht).
  destruct (connect_trace (id u) ctor w2) as [l Htr].
  repeat split.
  - by rewrite Hs.
  - by rewrite Hl'.
  - rewrite Htr. rewrite !elem_of_app, elem_of_cons. tauto.
  - apply connect_userId.
  - rewrite Ht. subst w2. by toasts_simpl.
Qed.

Lemma initializeAuth_success_witness :
  let b := service (Response2xx alice) in
  let w := returning_page in
  let w' := exec (initializeAuth b CtorOk) w in
  localStorage w !! "access_token" = Some "stale-token" /\
  "stale-token" <> EmptyString /\
  serve_me b (Some ("Bearer " +:+ "stale-token")) = Response2xx alice /\
  outcome (initializeAuth b CtorOk) w = Ok tt /\
  store w' = mkAuthState (Some alice) false true /\
  localStorage w' = localStorage w /\
  CallConnect (id alice) ∈ trace w' /\
  userId (notificationSocket w') = Some (id alice) /\
  toasts w' = toasts w.
Proof.
  cbn zeta. split; [reflexivity|]. split; [discriminate|]. split; [reflexivity|].
  apply (initializeAuth_success (service (Response2xx alice)) CtorOk returning_page
           "stale-token" alice); [reflexivity | discriminate | reflexivity].
Defined.

(** X19. Without a usable credential (none stored, or the empty text)
    [initializeAuth] asks the service nothing: whatever the service would
    answer, it marks the session unauthenticated and loaded and does nothing
    else; it shows no alert, opens no socket, and leaves local storage as it
    is, an empty credential included. *)
Theorem initializeAuth_without_credential b b' ctor ctor' (w : World) :
  truthy (localStorage w !! "access_token") = false ->
  let w' := exec (initializeAuth b ctor) w in
  initializeAuth b ctor w = initializeAuth b' ctor' w /\
  outcome (initializeAuth b ctor) w = Ok tt /\
  isAuthenticated (store w') = false /\
  isLoading (store w') = false /\
  user (store w') = user (store w) /\
  localStorage w' = localStorage w /\
  toasts w' = toasts w /\
  heap w' = heap w /\
  notificationSocket w' = notificationSocket w.
Proof.
  intros H. cbn zeta. unfold exec, outcome.
  rewrite !initializeAuth_no_credential by done. cbn.
  repeat split. by toasts_simpl.
Qed.

Lemma initializeAuth_without_credential_witness :
  let b := service (Response2xx alice) in
  let b' := service (rejection None) in
  let w := fresh_page {[ "access_token" := EmptyString ]} "http:" "localhost:3000" "/" 0 in
  let w' := exec (initializeAuth b CtorOk) w in
  truthy (localStorage w !! "access_token") = false /\
  initializeAuth b CtorOk w = initializeAuth b' CtorThrows w /\
  outcome (initializeAuth b CtorOk) w = Ok tt /\
  isAuthenticated (store w') = false /\
  isLoading (store w') = false /\
  user (store w') = user (store w) /\
  localStorage w' = localStorage w /\
  toasts w' = toasts w /\
  heap w' = heap w /\
  notificationSocket w' = notificationSocket w.
Proof.
  cbn zeta. split; [reflexivity|].
  apply (initializeAuth_without_credential (service (Response2xx alice))
           (service (rejection None)) CtorOk CtorThrows
           (fresh_page {[ "access_token" := EmptyString ]} "http:" "localhost:3000" "/" 0)).
  reflexivity.
Defined.

Lemma login_store_effect b ctor credentials w :
  store_effect (store w) (store (login b ctor credentials w).1).
Proof.
  destruct (serve_login b (bearer (localStorage w !! "access_token")) credentials)
    as [resp|error] eqn:Hl.
  - destruct (serve_me b (bearer (Some (access_token resp)))) as [u|error] eqn:Hm.
    + destruct (login_success_run b ctor credentials w resp u Hl Hm)
        as (w2 & Hst & _ & _ & _ & _ & ->).
      cbn. destruct (connect_untouched (id u) ctor w2) as (-> & _). rewrite Hst. constructor.
    + destruct (login_fetch_fails_run b ctor credentials w resp error Hl Hm)
        as (w1 & w2 & _ & Hu & Ha & -> & _ & Hu' & Ha' & Hload & _).
      destruct (interceptor_leaves_session (A:=User) error w1) as (Hst & _).
      cbn zeta in Hst. rewrite Hst in Hu', Ha'.
      destruct (store (login b ctor credentials w).1) as [u' ld au]. cbn in *.
      subst. rewrite Hu, Ha. constructor.
  - rewrite (login_exchange_fails_run b ctor credentials w error Hl). cbn.
    match goal with |- context [response_interceptor_rejected error ?w0] =>
      destruct (interceptor_leaves_session (A:=LoginResponse) error w0) as (-> & _) end.
    cbn. constructor.
Qed.

Lemma initializeAuth_store_effect b ctor w :
  store_effect (store w) (store (initializeAuth b ctor w).1).
Proof.
  destruct (truthy (localStorage w !! "access_token")) eqn:Ht.
  - destruct (localStorage w !! "access_token") as [token|] eqn:Htok; [|done].
    apply truthy_Some in Ht.
    destruct (serve_me b (Some ("Bearer " +:+ token))) as [u|error] eqn:Hm.
    + rewrite (initializeAuth_success_run b ctor w token u Htok Ht Hm). cbn.
      match goal with |- context [connect (id u) ctor ?w0] =>
        destruct (connect_untouched (id u) ctor w0) as (-> & _) end.
      constructor.
    + rewrite (initializeAuth_fetch_fails_run b ctor w token error Htok Ht Hm). cbn.
      constructor.
  - rewrite initializeAuth_no_credential by done. cbn. constructor.
Qed.

(** X20. Every operation of the session store ends with the loading flag
    off, whether it succeeds or fails, so the application never stays on its
    loading screen once [initializeAuth], [login] or [logout] has run. *)
Theorem loading_always_ends b ctor credentials (w : World) :
  isLoading (store (exec (login b ctor credentials) w)) = false /\
  isLoading (store (exec (initializeAuth b ctor) w)) = false /\
  isLoading (store (exec logout w)) = false /\
  (forall r, App (store (exec (initializeAuth b ctor) w)) r <> LoadingScreen).
Proof.
  assert (isLoading (store (exec (initializeAuth b ctor) w)) = false) as Hinit.
  { unfold exec. by destruct (initializeAuth_store_effect b ctor w). }
  split; [|split; [|split]].
  - unfold exec. by destruct (login_store_effect b ctor credentials w).
  - done.
  - unfold exec. by rewrite logout_run.
  - intros r. destruct (store (exec (initializeAuth b ctor) w)) as [u ld au].
    cbn in Hinit. subst ld. unfold App, guarded, ProtectedRoute. cbn.
    destruct r, u as [[? ? ? [] ? ?]|], au; cbn; discriminate.
Qed.
Lemma step_store JSON_parse a w : store (step JSON_parse a w).1 = store w.
Proof.
  destruct a; cbn [step].
  - apply connect_untouched.
  - apply disconnect_untouched.
  - by destruct (deliver_open_cases k w) as [->|[(s & _ & _ & _ & ->)|(s & _ & _ & _ & ->)]].
  - destruct (deliver_message_cases JSON_parse k d w) as [->|(s & _ & _ & _ & ->)]; [done|].
    by destruct (ws_onmessage_effect JSON_parse d w) as [_ (l & -> & _)].
  - by destruct (deliver_error_cases k w) as [->| ->].
  - destruct (deliver_close_cases k w) as [->|[(s & _ & _ & _ & ->)|(s & _ & _ & _ & ->)]];
      [done|done|]. by rewrite (proj1 (attemptReconnect_untouched _)).
  - destruct (fire_timer_cases i ctor w) as [->|[(t & _ & _ & _ & ->)|(t & _ & _ & _ & ->)]];
      [done| |].
    + rewrite (proj1 (createConnection_untouched ctor _)). unfold reschedule.
      by destruct (period t).
    + destruct (heartbeat_cases (reschedule i t w)) as [[_ ->]|(k & _ & _ & ->)];
        unfold reschedule; by destruct (period t).
  - done.
Qed.

Lemma api_call_store {A} (serve : option string -> Reply A) w :
  store (api_call serve w).1 = store w.
Proof.
  destruct (serve (bearer (localStorage w !! "access_token"))) as [data|error] eqn:H.
  - by rewrite (api_call_fulfilled serve w data H).
  - rewrite (api_call_rejected serve w error H).
    apply (interceptor_leaves_session (A:=A) error w).
Qed.

(** X21. Whatever the client does (logins, logouts, initialisations,
    [setUser], gateway calls with any answer, calls and events of the
    channel, in any order), a store that says authenticated holds a user. *)
Theorem authenticated_session_has_a_user JSON_parse (l : list ClientCall) (w : World) :
  (isAuthenticated (store w) = true -> is_Some (user (store w))) ->
  isAuthenticated (store (client_run JSON_parse l w)) = true ->
  is_Some (user (store (client_run JSON_parse l w))).
Proof.
  unfold client_run. revert w. induction l as [|c l IH]; intros w H; [done|].
  cbn [fold_left]. apply IH.
  destruct c; cbn [client_step]; unfold exec.
  - destruct (login_store_effect b ctor credentials w); cbn; try done; by eexists.
  - by rewrite logout_run.
  - destruct (initializeAuth_store_effect b ctor w); cbn; try done; by eexists.
  - unfold setUser, set. mrun. intros Hu. by apply bool_decide_eq_true in Hu.
  - unfold authAPI_logout, localStorage_removeItem, set_location_href. by mrun.
  - by rewrite api_call_store.
  - by rewrite step_store.
Qed.

Lemma authenticated_session_has_a_user_witness :
  let l := [CallInitializeAuth (service (rejection (Some 500))) CtorOk;
            CallLogin (service (Response2xx alice)) CtorOk alice_credentials;
            Channel (Opened 0);
            CallApi (fun _ => Rejected (mkAxiosError (Some 401)));
            CallInitializeAuth (service (Response2xx alice)) CtorOk] in
  (isAuthenticated (store login_page) = true -> is_Some (user (store login_page))) /\
  (isAuthenticated (store (client_run Json.parse l login_page)) = true ->
   is_Some (user (store (client_run Json.parse l login_page)))).
Proof.
  cbn zeta. split; [discriminate|].
  apply (authenticated_session_has_a_user Json.parse
           [CallInitializeAuth (service (rejection (Some 500))) CtorOk;
            CallLogin (service (Response2xx alice)) CtorOk alice_credentials;
            Channel (Opened 0);
            CallApi (fun _ => Rejected (mkAxiosError (Some 401)));
            CallInitializeAuth (service (Response2xx alice)) CtorOk] login_page).
  discriminate.
Defined.

(** ** The views derived from the store, and the guards *)

(** X22. The three role views partition the users: with a user in the store
    exactly the view of the user's role holds, without one none does and
    every capability is refused.  Only an admin manages users; an executor
    may not create tickets and a customer may not generate reports, and
    everybody with a role may do at least one of the two. *)
Theorem role_views (s : AuthState) :
  match user s with
  | Some u =>
      useIsAdmin s = bool_decide (role u = admin) /\
      useIsExecutor s = bool_decide (role u = executor) /\
      useIsCustomer s = bool_decide (role u = customer) /\
      useCanManageUsers s = bool_decide (role u = admin) /\
      useCanCreateTickets s = negb (bool_decide (role u = executor)) /\
      useCanGenerateReports s = negb (bool_decide (role u = customer)) /\
      useCanCreateTickets s || useCanGenerateReports s = true
  | None =>
      useIsAdmin s = false /\ useIsExecutor s = false /\ useIsCustomer s = false /\
      useCanManageUsers s = false /\ useCanCreateTickets s = false /\
      useCanGenerateReports s = false
  end.
Proof.
  unfold useIsAdmin, useIsExecutor, useIsCustomer, useCanManageUsers, useCanCreateTickets,
    useCanGenerateReports, has_role.
  destruct (user s) as [u|]; [|done]. by destruct (role u).
Qed.

(** X23. The guards of the route table agree with the capability views: the
    users page is rendered exactly for a loaded, authenticated session that
    may manage users, the reports page exactly for one that may generate
    reports; and no page but the login page and the not-found page is ever
    rendered for a session that is not authenticated or has no user. *)
Theorem guards_agree_with_capabilities (s : AuthState) :
  (App s RUsers = Display UsersPage <->
   isLoading s = false /\ isAuthenticated s = true /\ useCanManageUsers s = true) /\
  (App s RReports = Display ReportsPage <->
   isLoading s = false /\ isAuthenticated s = true /\ useCanGenerateReports s = true) /\
  (forall r p, App s r = Display p -> p <> LoginPage -> p <> NotFoundPage ->
     isLoading s = false /\ isAuthenticated s = true /\ is_Some (user s)).
Proof.
  unfold App, guarded, ProtectedRoute, useCanManageUsers, useCanGenerateReports, has_role.
  destruct s as [[[? ? ? [] ? ?]|] [] []]; cbn.
  all: split; [|split]; try (split; intros H; try done; by destruct H as (? & ? & ?)).
  all: intros r p; destruct r; cbn; intros [= <-]; try done.
  all: intros _ _; repeat split; by eexists.
Qed.

(** X24. How [ProtectedRoute] reads [requiredRole]: one role is the same as
    the list of that role; the empty text as a role asks for nothing; and an
    empty list refuses every authenticated user. *)
Theorem requiredRole_readings (s : AuthState) (r : string) :
  (r <> EmptyString -> ProtectedRoute (OneRole r) s = ProtectedRoute (Roles [r]) s) /\
  ProtectedRoute (OneRole EmptyString) s = ProtectedRoute NoRole s /\
  (isLoading s = false -> isAuthenticated s = true -> is_Some (user s) ->
   ProtectedRoute (Roles []) s = AccessDenied).
Proof.
  unfold ProtectedRoute. repeat split.
  - intros Hr. cbn. by destruct (String.eqb_spec r EmptyString).
  - intros -> -> [u ->]. done.
Qed.
(** X25. The redirects of the route table come to rest after one hop on
    every route, provided the store is loaded and does not hold a user while
    saying unauthenticated; in that one state, the login route and the
    dashboard send to each other for ever. *)
Theorem redirects_settle (s : AuthState) :
  isLoading s = false ->
  ((is_Some (user s) -> isAuthenticated s = true) ->
   forall r to, settle 1 s r <> GoTo to) /\
  (is_Some (user s) -> isAuthenticated s = false ->
   forall n, settle n s RLogin = GoTo (if Nat.even n then "/dashboard" else "/login")).
Proof.
  intros Hload. split.
  - intros Hc r to.
    destruct s as [[u|] ld au]; cbn in *; subst ld.
    + rewrite Hc by (by eexists).
      unfold settle, App, guarded, ProtectedRoute. cbn.
      destruct r, u as [? ? ? [] ? ?]; cbn; discriminate.
    + unfold settle, App, guarded, ProtectedRoute. cbn. destruct r; cbn; discriminate.
  - intros [u Hu] Hau n.
    assert (App s RLogin = GoTo "/dashboard") as HL.
    { unfold App. by rewrite Hload, Hu. }
    assert (App s RDashboard = GoTo "/login") as HD.
    { unfold App, guarded, ProtectedRoute. by rewrite Hload, Hu, Hau. }
    assert (forall n, settle n s RLogin = GoTo (if Nat.even n then "/dashboard" else "/login") /\
                      settle n s RDashboard = GoTo (if Nat.even n then "/login" else "/dashboard"))
      as Hboth.
    { clear n. induction n as [|n [IH1 IH2]].
      - cbn. by rewrite HL, HD.
      - cbn [settle]. rewrite HL, HD. cbn [route_of_target String.eqb Ascii.eqb Bool.eqb].
        change (route_of_target "/dashboard") with RDashboard.
        change (route_of_target "/login") with RLogin.
        rewrite IH1, IH2. rewrite Nat.even_succ, <- Nat.negb_even.
        by destruct (Nat.even n). }
    apply Hboth.
Qed.

Lemma redirects_settle_witness :
  let s := mkAuthState (Some alice) false true in
  isLoading s = false /\
  ((is_Some (user s) -> isAuthenticated s = true) ->
   forall r to, settle 1 s r <> GoTo to) /\
  (is_Some (user s) -> isAuthenticated s = false ->
   forall n, settle n s RLogin = GoTo (if Nat.even n then "/dashboard" else "/login")).
Proof.
  cbn zeta. split; [reflexivity|].
  apply (redirects_settle (mkAuthState (Some alice) false true)). reflexivity.
Defined.

(** X26. The sidebar and the guards: an authenticated user sees the link to
    the users page exactly when the route renders it; the link to the
    reports is shown to everybody, although for a customer the route answers
    with the access-denied screen. *)
Theorem navigation_and_guards (s : AuthState) (u : User) :
  isLoading s = false ->
  isAuthenticated s = true ->
  user s = Some u ->
  (("Пользователи", "/users") ∈ navigation s <-> App s RUsers = Display UsersPage) /\
  ("Отчеты", "/reports") ∈ navigation s /\
  (role u = customer -> App s RReports = Denied) /\
  length (navigation s) = (if useIsAdmin s then 5 else 4)%nat.
Proof.
  intros Hl Ha Hu.
  unfold navigation, App, guarded, ProtectedRoute, useIsAdmin, has_role.
  rewrite Hl, Ha, Hu. cbn.
  destruct (role u); cbn; repeat split; try done.
  all: rewrite ?elem_of_cons, ?elem_of_nil; try tauto.
  all: intros H; repeat destruct H as [H|H]; try discriminate; done.
Qed.

Lemma navigation_and_guards_witness :
  let s := mkAuthState (Some alice) false true in
  isLoading s = false /\
  isAuthenticated s = true /\
  user s = Some alice /\
  (("Пользователи", "/users") ∈ navigation s <-> App s RUsers = Display UsersPage) /\
  ("Отчеты", "/reports") ∈ navigation s /\
  (role alice = customer -> App s RReports = Denied) /\
  length (navigation s) = (if useIsAdmin s then 5 else 4)%nat.
Proof.
  cbn zeta. split; [reflexivity|]. split; [reflexivity|]. split; [reflexivity|].
  apply (navigation_and_guards (mkAuthState (Some alice) false true) alice); reflexivity.
Defined.

(** X27. The submit handler of the login page always releases the submit
    state, and what it does to the browser is what [login] does.  When both
    calls of the login are answered with success it navigates to the
    dashboard, and the route table then renders the dashboard for the new
    session; in every other case it does not navigate and sets the error of
    the form. *)
Theorem login_form_submit b ctor (form_email form_password : string)
    (st : LoginPageState) (w : World) :
  let r := Login_onSubmit b ctor form_email form_password st w in
  let credentials := mkLoginRequest form_email form_password in
  isSubmitting r.2 = false /\
  r.1 = exec (login b ctor credentials) w /\
  match serve_login b (bearer (localStorage w !! "access_token")) credentials with
  | Response2xx resp =>
      match serve_me b (bearer (Some (access_token resp))) with
      | Response2xx u =>
          navigated r.2 = Some "/dashboard" /\
          App (store r.1) RDashboard = Display DashboardPage
      | Rejected _ =>
          navigated r.2 = navigated st /\ root_error r.2 = Some "Ошибка входа в систему"
      end
  | Rejected _ =>
      navigated r.2 = navigated st /\ root_error r.2 = Some "Ошибка входа в систему"
  end.
Proof.
  cbn zeta. unfold Login_onSubmit, exec.
  destruct (serve_login b (bearer (localStorage w !! "access_token"))
              (mkLoginRequest form_email form_password)) as [resp|error] eqn:Hl.
  - destruct (serve_me b (bearer (Some (access_token resp)))) as [u|error] eqn:Hm.
    + destruct (login_success_run b ctor _ w resp u Hl Hm) as (w2 & Hst & _ & _ & _ & _ & ->).
      cbn. repeat split.
      unfold App, guarded, ProtectedRoute. cbn.
      destruct (connect_untouched (id u) ctor w2) as (-> & _). by rewrite Hst.
    + destruct (login_fetch_fails_run b ctor _ w resp error Hl Hm)
        as (w1 & w2 & _ & _ & _ & _ & _ & _ & _ & _ & Hthrow).
      destruct (login b ctor _ w) as [w' r]. cbn in Hthrow. by subst r.
  - by rewrite (login_exchange_fails_run b ctor _ w error Hl).
Qed.
